(** * HolidayTripVote: the Python bridge ([python/bridge.py])

    A shallow embedding of the vote-aggregation and upload-scheduling
    engine of [bridge.py], and the properties of its specification.

    Conventions of the embedding.
    - Python [int] is [Z].  The values that [json.load] and
      [response.json()] return are [pyval]s: null, integers, strings,
      arrays and objects.  JSON booleans and numbers with a fraction or an
      exponent (Python [bool] and [float]) are outside the model; where a
      statement below speaks of a count that is not a number, it names
      the kinds of value it covers.
    - A Python [str] is a Rocq [string] whose characters are code points
      below 256.  Conversions between [int] and [str] ([int()], [str()],
      formatting, JSON) are modelled without CPython's optional limit on
      the number of digits.
    - Floating point is not modelled.  The only place where the bridge
      computes with it is the percentage and the bar of [print_status];
      the model decides how that ends where it does not depend on the
      arithmetic or on the memory of the machine, and takes it from the
      environment elsewhere (see [print_status]).
    - [time.time()] readings are rationals ([Q]), in seconds.
    - The module-level globals ([votes], [votes_since_last_upload],
      [last_upload_time]) and the two files are the fields of one [state];
      every function is a computation that threads this state and either
      returns or raises.  A raise keeps the mutations made before it, as
      in Python.
    - What the environment decides (the HTTP exchange, whether a file can
      be opened, the clock) is an explicit argument of the function that
      consults it.  The credentials read from [.env] are parameters; the
      check at import time that they are present is not modelled.
    - What the bridge does to the outside world (file reads and writes,
      HTTP requests) is recorded in the [trace] field of the state.
      Console output is not: every [print] is taken to succeed.
    - The serial port, once it is open, is taken to deliver its lines
      without error, and the interrupt to arrive between two iterations
      of the loop. *)

From Stdlib Require Import ZArith QArith String Ascii List Bool Lia.
From Stdlib Require Import DecimalString DecimalPos DecimalZ Lqa.
From stdpp Require Import base option gmap strings list fin_maps.

Open Scope string_scope.
Open Scope Z_scope.
Set Warnings "-register-all".

(** ** Python values, as [json.load] and [response.json()] produce them *)

Inductive pyval : Type :=
  | PNone
  | PInt (n : Z)
  | PStr (s : string)
  | PList (l : list pyval)
  | PObj (items : list (string * pyval)).

(** Python exceptions that the bridge can meet.  [SystemExit] is what
    [sys.exit(code)] raises; it is not an [Exception]. *)
Inductive exn : Type :=
  | ValueError
  | TypeError
  | KeyError
  | AttributeError
  | OSError
  | RequestException
  | MemoryError
  | OverflowError
  | SystemExit (code : Z).

Inductive result (A : Type) : Type :=
  | Ok (a : A)
  | Raise (e : exn).
Arguments Ok {A} a.
Arguments Raise {A} e.

(** [except Exception], [except ValueError],
    [except requests.exceptions.RequestException]. *)
Definition is_Exception (e : exn) : bool :=
  match e with SystemExit _ => false | _ => true end.
Definition is_ValueError (e : exn) : bool :=
  match e with ValueError => true | _ => false end.
Definition is_RequestException (e : exn) : bool :=
  match e with RequestException => true | _ => false end.

(** ** Strings: [str.strip], [str.split(',')], [str.startswith], [int], [str] *)

Module PyStr.

(** [str.isspace] on code points below 256. *)
Definition is_space (c : ascii) : bool :=
  let n := N_of_ascii c in
  ((9 <=? n) && (n <=? 13) || (28 <=? n) && (n <=? 32)
   || (n =? 133) || (n =? 160))%N.

Fixpoint lstrip (s : string) : string :=
  match s with
  | EmptyString => EmptyString
  | String c s' => if is_space c then lstrip s' else s
  end.

Fixpoint rstrip (s : string) : string :=
  match s with
  | EmptyString => EmptyString
  | String c s' =>
      let r := rstrip s' in
      if is_space c && String.eqb r EmptyString then EmptyString
      else String c r
  end.

Definition strip (s : string) : string := rstrip (lstrip s).

(** [s.split(',')]: never empty, [''.split(',') == ['']]. *)
Fixpoint split_comma (s : string) : list string :=
  match s with
  | EmptyString => [EmptyString]
  | String c s' =>
      if Ascii.eqb c "," then EmptyString :: split_comma s'
      else match split_comma s' with
           | p :: ps => String c p :: ps
           | [] => [String c EmptyString]
           end
  end.

Definition startswith (s p : string) : bool := String.prefix p s.

Definition digit_val (c : ascii) : option Z :=
  let n := N_of_ascii c in
  if ((48 <=? n) && (n <=? 57))%N then Some (Z.of_N (n - 48)) else None.

(** The digits of a decimal literal: at least one digit, single
    underscores allowed between digits only.  [after_digit] tells
    whether the previous character was a digit. *)
Fixpoint parse_digits (acc : Z) (after_digit : bool) (s : string) : option Z :=
  match s with
  | EmptyString => if after_digit then Some acc else None
  | String c s' =>
      match digit_val c with
      | Some d => parse_digits (10 * acc + d) true s'
      | None =>
          if Ascii.eqb c "_" && after_digit then parse_digits acc false s'
          else None
      end
  end.

(** The white space that [int()] skips before and after the numeral: of
    the code points below 128 those of C's [isspace], of the others those
    of Unicode.  The separators 28 to 31, which [str.strip] removes, are
    not among them: [int("2\x1c")] raises [ValueError]. *)
Definition is_int_space (c : ascii) : bool :=
  let n := N_of_ascii c in
  ((9 <=? n) && (n <=? 13) || (n =? 32) || (n =? 133) || (n =? 160))%N.

Fixpoint int_lstrip (s : string) : string :=
  match s with
  | EmptyString => EmptyString
  | String c s' => if is_int_space c then int_lstrip s' else s
  end.

Fixpoint int_rstrip (s : string) : string :=
  match s with
  | EmptyString => EmptyString
  | String c s' =>
      let r := int_rstrip s' in
      if is_int_space c && String.eqb r EmptyString then EmptyString
      else String c r
  end.

(** [int(s)] for a string [s]; [None] stands for [ValueError]. *)
Definition py_int (s : string) : option Z :=
  match int_rstrip (int_lstrip s) with
  | String "+" r => parse_digits 0 false r
  | String "-" r => Z.opp <$> parse_digits 0 false r
  | t => parse_digits 0 false t
  end.

(** [str(n)] for an integer [n]. *)
Definition py_str (n : Z) : string := NilZero.string_of_int (Z.to_int n).

End PyStr.

(** ** The program state and its environment *)

(** [VOTES_FILE] as [load_votes_from_file] sees it: absent, present but
    not readable as JSON ([open] or [json.load] raises), or present with
    the value [json.load] returns. *)
Inductive json_file : Type :=
  | Missing
  | Corrupt
  | Json (v : pyval).

(** What the bridge does to the outside world, newest first. *)
Inductive event : Type :=
  | EReadVotes
  | EWriteVotes (content : pyval)
  | EAppendLog (rows : list (list string))
  | EGet (url : string)
  | EPost (payload : list (string * pyval)).

Record state : Type := mkState {
  votes : gmap Z pyval;
  votes_since_last_upload : Z;
  last_upload_time : Q;
  votes_file : json_file;
  log_file : option (list (list string));
  trace : list event
}.

(** Outcome of [requests.get] / [requests.post]: a transport error
    ([RequestException]) or a response.  [g_json] is the value of
    [response.json()], [None] when that call raises. *)
Inductive get_outcome : Type :=
  | GetFails
  | GetResp (status_code : Z) (g_json : option pyval).

Inductive post_outcome : Type :=
  | PostFails
  | PostResp (status_code : Z) (text : string).

(** ** Computations that may raise *)

Definition Py (A : Type) : Type := state -> result A * state.

#[global] Instance Py_ret : MRet Py := fun A a st => (Ok a, st).
#[global] Instance Py_bind : MBind Py := fun A B f m st =>
  match m st with
  | (Ok a, st') => f a st'
  | (Raise e, st') => (Raise e, st')
  end.

Definition raise {A} (e : exn) : Py A := fun st => (Raise e, st).
Definition get : Py state := fun st => (Ok st, st).
Definition modify (f : state -> state) : Py unit := fun st => (Ok tt, f st).

(** [try: body except <catches>: handler] *)
Definition try_except {A} (body : Py A) (catches : exn -> bool)
    (handler : Py A) : Py A := fun st =>
  match body st with
  | (Raise e, st') => if catches e then handler st' else (Raise e, st')
  | r => r
  end.

Definition or_raise {A} (e : exn) (o : option A) : Py A :=
  match o with Some a => mret a | None => raise e end.

Definition lift {A} (r : result A) : Py A := fun st => (r, st).

Definition set_votes (v : gmap Z pyval) : Py unit :=
  modify (fun st => mkState v (votes_since_last_upload st) (last_upload_time st)
                            (votes_file st) (log_file st) (trace st)).
Definition set_votes_since_last_upload (n : Z) : Py unit :=
  modify (fun st => mkState (votes st) n (last_upload_time st)
                            (votes_file st) (log_file st) (trace st)).
Definition set_last_upload_time (t : Q) : Py unit :=
  modify (fun st => mkState (votes st) (votes_since_last_upload st) t
                            (votes_file st) (log_file st) (trace st)).
Definition set_votes_file (f : json_file) : Py unit :=
  modify (fun st => mkState (votes st) (votes_since_last_upload st)
                            (last_upload_time st) f (log_file st) (trace st)).
Definition set_log_file (l : option (list (list string))) : Py unit :=
  modify (fun st => mkState (votes st) (votes_since_last_upload st)
                            (last_upload_time st) (votes_file st) l (trace st)).
Definition emit (ev : event) : Py unit :=
  modify (fun st => mkState (votes st) (votes_since_last_upload st)
                            (last_upload_time st) (votes_file st) (log_file st)
                            (ev :: trace st)).

(** ** Operations on Python values *)

(** Truth value of an object, as [x or 0] and [data and ...] test it. *)
Definition truthy (v : pyval) : bool :=
  match v with
  | PNone => false
  | PInt n => negb (n =? 0)
  | PStr s => negb (String.eqb s "")
  | PList l => match l with [] => false | _ => true end
  | PObj items => match items with [] => false | _ => true end
  end.

(** [x or 0] *)
Definition or_zero (v : pyval) : pyval := if truthy v then v else PInt 0.

(** [int(x)] *)
Definition int_of (v : pyval) : result Z :=
  match v with
  | PInt n => Ok n
  | PStr s => match PyStr.py_int s with Some n => Ok n | None => Raise ValueError end
  | _ => Raise TypeError
  end.

(** [x + 1], the right-hand side of [x += 1]. *)
Definition add_one (v : pyval) : result pyval :=
  match v with
  | PInt n => Ok (PInt (n + 1))
  | _ => Raise TypeError
  end.

(** [sum(values)] *)
Fixpoint py_sum (acc : Z) (l : list pyval) : result Z :=
  match l with
  | [] => Ok acc
  | PInt n :: r => py_sum (acc + n) r
  | _ :: _ => Raise TypeError
  end.

(** Items of a dict; the last binding of a key is the one the dict holds. *)
Fixpoint obj_get (k : string) (items : list (string * pyval)) : option pyval :=
  match items with
  | [] => None
  | (k', v) :: r =>
      match obj_get k r with
      | Some w => Some w
      | None => if String.eqb k k' then Some v else None
      end
  end.

(** Whether [p] occurs in [s] ([p in s] on strings). *)
Fixpoint substring_of (p s : string) : bool :=
  String.prefix p s
  || match s with EmptyString => false | String _ s' => substring_of p s' end.

(** ['field1' in data] *)
Definition contains (k : string) (data : pyval) : result bool :=
  match data with
  | PObj items => Ok (bool_decide (is_Some (obj_get k items)))
  | PList l =>
      Ok (existsb (fun v => match v with PStr s => String.eqb s k | _ => false end) l)
  | PStr s => Ok (substring_of k s)
  | PInt _ | PNone => Raise TypeError
  end.

(** [data.get(k)]: [None] when the key is missing; only dicts have [get]. *)
Definition py_get (k : string) (data : pyval) : result pyval :=
  match data with
  | PObj items => Ok (default PNone (obj_get k items))
  | _ => Raise AttributeError
  end.

(** [saved.items()] *)
Definition py_items (v : pyval) : result (list (string * pyval)) :=
  match v with
  | PObj items => Ok items
  | _ => Raise AttributeError
  end.

(** [{int(k): v for k, v in items}], built left to right. *)
Fixpoint int_keyed (items : list (string * pyval)) (acc : gmap Z pyval)
    : result (gmap Z pyval) :=
  match items with
  | [] => Ok acc
  | (k, v) :: r =>
      match PyStr.py_int k with
      | Some n => int_keyed r (<[n := v]> acc)
      | None => Raise ValueError
      end
  end.

(** What [json.dump(votes, f)] leaves in the file, as [json.load] would
    read it back: integer keys become their decimal strings.  The items
    come in the order of the map, not in the insertion order of the
    Python dict; the keys are distinct, so that reading them back does not
    depend on the order. *)
Definition json_dump (v : gmap Z pyval) : pyval :=
  PObj ((fun kv => (PyStr.py_str kv.1, kv.2)) <$> map_to_list v).

(** ** Configuration *)

Definition UPLOAD_INTERVAL : Q := 15.

Definition CANDIDATES : gmap Z string :=
  <[1 := "Japan"]> (<[2 := "Germany"]> (<[3 := "Switzerland"]>
    (<[4 := "Norway"]> ∅))).

(** The module-level initial values of [votes], [votes_since_last_upload]
    and [last_upload_time]; the files and the (empty) trace complete the
    state the process starts in. *)
Definition initial_votes : gmap Z pyval :=
  <[1 := PInt 0]> (<[2 := PInt 0]> (<[3 := PInt 0]> (<[4 := PInt 0]> ∅))).

Definition initial_state (vf : json_file) (lf : option (list (list string)))
    : state :=
  mkState initial_votes 0 0%Q vf lf [].

(** ** Local files *)

Definition file_exists (f : json_file) : bool :=
  match f with Missing => false | _ => true end.

(** [with open(VOTES_FILE, 'r') as f: json.load(f)] *)
Definition json_load_votes_file : Py pyval :=
  emit EReadVotes;;
  st ← get;
  match votes_file st with
  | Json v => mret v
  | Corrupt => raise ValueError
  | Missing => raise OSError
  end.

Definition load_votes_from_file : Py unit :=
  try_except
    (st ← get;
     if file_exists (votes_file st) then
       saved ← json_load_votes_file;
       items ← lift (py_items saved);
       new ← lift (int_keyed items ∅);
       set_votes new
     else mret tt)
    is_Exception
    (mret tt).

(** [save_votes]; [can_open] is whether [open(VOTES_FILE, 'w')] succeeds. *)
Definition save_votes (can_open : bool) : Py unit :=
  try_except
    (if can_open then
       st ← get;
       set_votes_file (Json (json_dump (votes st)));;
       emit (EWriteVotes (json_dump (votes st)))
     else raise OSError)
    is_Exception
    (mret tt).

Definition log_header : list string :=
  ["timestamp"; "candidate_id"; "candidate_name"].

(** [log_vote]; [timestamp] is [datetime.now().isoformat()] and
    [can_open] is whether [open(LOG_FILE, 'a')] succeeds. *)
Definition log_vote (timestamp : string) (can_open : bool) (candidate_id : Z)
    : Py unit :=
  try_except
    (let candidate_name :=
       default ("Unknown-" +:+ PyStr.py_str candidate_id)
               (CANDIDATES !! candidate_id) in
     st ← get;
     let file_exists := bool_decide (is_Some (log_file st)) in
     if can_open then
       let rows :=
         ((if file_exists then [] else [log_header])
          ++ [[timestamp; PyStr.py_str candidate_id; candidate_name]])%list in
       set_log_file (Some (default [] (log_file st) ++ rows)%list);;
       emit (EAppendLog rows)
     else raise OSError)
    is_Exception
    (mret tt).

(** ** Reporting *)

(** [print_status] writes to the console only; what is kept of it is
    where it can raise.

    How the construction of the bar of one candidate ends, where the
    model does not decide it. *)
Inductive bar_outcome : Type :=
  | BarBuilt
  | BarMemoryError
  | BarOverflowError.

(** One turn of the loop over [CANDIDATES] in [print_status], for the
    candidate [cid]:
    [pct = (votes[cid] / total * 100) if total > 0 else 0],
    [bar = cell * int(pct / 5)] for a string literal [cell] of three
    characters, and the row printed with [votes[cid]].

    [votes[cid]] raises [KeyError] for a candidate that has no entry, in
    [pct] when [total > 0] and in the printed row otherwise.  With
    [total <= 0] the percentage is the integer 0 and the bar is empty.
    With [0 <= votes[cid] <= total] the quotient is between 0 and 1, the
    percentage between 0 and 100, and the bar has at most 20 cells.
    Outside this range the bar has [int(votes[cid] / total * 100 / 5)]
    cells, computed in floating point: the division raises
    [OverflowError] when the quotient is too large for a float, [int]
    does when the product is infinite, the repetition does when the
    number of cells does not fit an index, and it raises [MemoryError]
    when the machine cannot hold a string of that length.  The model does
    not decide between these and success: [bars cid] says how it ends. *)
Definition status_row (bars : Z -> bar_outcome) (total cid : Z) : Py unit :=
  st ← get;
  x ← or_raise KeyError (votes st !! cid);
  match x with
  | PInt count =>
      if (total <=? 0) || (0 <=? count) && (count <=? total) then mret tt
      else match bars cid with
           | BarBuilt => mret tt
           | BarMemoryError => raise MemoryError
           | BarOverflowError => raise OverflowError
           end
  | _ => raise TypeError
  end.

(** [print_status]: [sum(votes.values())] raises [TypeError] on a value
    that is not a number; the rows follow in the order of [CANDIDATES].
    (After the sum every count is an integer: the last case of
    [status_row] is never reached.) *)
Definition print_status (bars : Z -> bar_outcome) : Py unit :=
  st ← get;
  total ← lift (py_sum 0 ((map_to_list (votes st)).*2));
  status_row bars total 1;;
  status_row bars total 2;;
  status_row bars total 3;;
  status_row bars total 4.

(** ** Votes *)

(** The environment of one [process_vote] call. *)
Record vote_env : Type := mkVoteEnv {
  ve_timestamp : string;
  ve_log_opens : bool;
  ve_save_opens : bool
}.

Definition process_vote (env : vote_env) (line : string) : Py bool :=
  try_except
    (let parts := PyStr.split_comma (PyStr.strip line) in
     if (length parts =? 2)%nat && String.eqb (nth 0 parts "") "VOTE" then
       candidate_id ← or_raise ValueError (PyStr.py_int (nth 1 parts ""));
       st ← get;
       if bool_decide (is_Some (votes st !! candidate_id)) then
         old ← or_raise KeyError (votes st !! candidate_id);
         new ← lift (add_one old);
         set_votes (<[candidate_id := new]> (votes st));;
         st ← get;
         set_votes_since_last_upload (votes_since_last_upload st + 1);;
         log_vote (ve_timestamp env) (ve_log_opens env) candidate_id;;
         save_votes (ve_save_opens env);;
         mret true
       else mret false
     else mret false)
    is_ValueError
    (mret false).

(** ** Upload scheduling *)

(** [should_upload]; [now] is the reading of [time.time()]. *)
Definition should_upload (now : Q) : Py bool :=
  st ← get;
  let time_elapsed := (now - last_upload_time st)%Q in
  if Qle_bool UPLOAD_INTERVAL time_elapsed && (0 <? votes_since_last_upload st)
  then mret true
  else mret false.

Section Remote.

(** The credentials and the channel read from [.env]. *)
Variable THINGSPEAK_WRITE_API_KEY : string.
Variable THINGSPEAK_READ_API_KEY : string.
Variable THINGSPEAK_CHANNEL_ID : string.

Definition THINGSPEAK_READ_URL : string :=
  "https://api.thingspeak.com/channels/" +:+ THINGSPEAK_CHANNEL_ID
    +:+ "/feeds/last.json".

Definition requests_get (url : string) (o : get_outcome) : Py (Z * option pyval) :=
  emit (EGet url);;
  match o with
  | GetFails => raise RequestException
  | GetResp status_code body => mret (status_code, body)
  end.

Definition requests_post (payload : list (string * pyval)) (o : post_outcome)
    : Py (Z * string) :=
  emit (EPost payload);;
  match o with
  | PostFails => raise RequestException
  | PostResp status_code text => mret (status_code, text)
  end.

(** The [payload] dict that [upload_to_thingspeak] builds from the
    tally: a new dict holding the four counts. *)
Definition payload_of_votes : Py (list (string * pyval)) :=
  st ← get;
  f1 ← or_raise KeyError (votes st !! 1);
  f2 ← or_raise KeyError (votes st !! 2);
  f3 ← or_raise KeyError (votes st !! 3);
  f4 ← or_raise KeyError (votes st !! 4);
  mret [("api_key", PStr THINGSPEAK_WRITE_API_KEY);
        ("field1", f1); ("field2", f2); ("field3", f3); ("field4", f4)].

(** [upload_to_thingspeak]; [now] is the reading of [time.time()] taken
    after a successful exchange. *)
Definition upload_to_thingspeak (o : post_outcome) (now : Q) : Py bool :=
  try_except
    (payload ← payload_of_votes;
     response ← requests_post payload o;
     if (response.1 =? 200) && negb (String.eqb response.2 "0") then
       set_last_upload_time now;;
       set_votes_since_last_upload 0;;
       mret true
     else mret false)
    is_RequestException
    (mret false).

(** [votes[cid] = int(data.get(field) or 0)] *)
Definition assign_field (cid : Z) (field : string) (data : pyval) : Py unit :=
  x ← lift (py_get field data);
  n ← lift (int_of (or_zero x));
  st ← get;
  set_votes (<[cid := PInt n]> (votes st)).

Definition fetch_votes_from_thingspeak (o : get_outcome) : Py bool :=
  synced ← try_except
    (let url := THINGSPEAK_READ_URL +:+ "?api_key=" +:+ THINGSPEAK_READ_API_KEY in
     response ← requests_get url o;
     if response.1 =? 200 then
       data ← or_raise ValueError response.2;
       has ← (if truthy data then lift (contains "field1" data) else mret false);
       if (has : bool) then
         assign_field 1 "field1" data;;
         assign_field 2 "field2" data;;
         assign_field 3 "field3" data;;
         assign_field 4 "field4" data;;
         mret true
       else mret false
     else mret false)
    is_Exception
    (mret false);
  if (synced : bool) then mret true
  else (load_votes_from_file;; mret false).

(** ** The runner *)

(** What one iteration of the processing loop meets: the decoded serial
    line when [ser.in_waiting > 0], the environment of the vote, the
    clock at [should_upload], the exchange of the upload, the clock after
    it, and the bars of the [print_status] that follows the upload. *)
Record tick : Type := mkTick {
  t_line : option string;
  t_vote : vote_env;
  t_now : Q;
  t_post : post_outcome;
  t_uploaded_at : Q;
  t_bars : Z -> bar_outcome
}.

Definition loop_body (t : tick) : Py unit :=
  match t_line t with
  | Some raw =>
      let line := PyStr.strip raw in
      if negb (String.eqb line "") then
        if String.eqb line "READY" then mret tt
        else if PyStr.startswith line "VOTE," then
          _ ← process_vote (t_vote t) line; mret tt
        else mret tt
      else mret tt
  | None => mret tt
  end;;
  due ← should_upload (t_now t);
  if (due : bool) then
    _ ← upload_to_thingspeak (t_post t) (t_uploaded_at t);
    print_status (t_bars t)
  else mret tt.

Fixpoint loop (ts : list tick) : Py unit :=
  match ts with
  | [] => mret tt
  | t :: ts' => loop_body t;; loop ts'
  end.

(** [main] up to the loop: [com_port] is the port chosen from the
    command line or by detection ([None]: none found), [bars] the bars of
    the first [print_status], [now] the clock when the upload time is
    initialised, [serial_opens] whether [serial.Serial(...)] succeeds. *)
Definition startup (com_port : option string) (bars : Z -> bar_outcome)
    (now : Q) (serial_opens : bool) : Py unit :=
  match com_port with Some _ => mret tt | None => raise (SystemExit 1) end;;
  load_votes_from_file;;
  print_status bars;;
  set_last_upload_time now;;
  if serial_opens then mret tt else raise (SystemExit 1).

(** The [except KeyboardInterrupt] handler of [main]. *)
Definition on_interrupt (bars : Z -> bar_outcome) (o : post_outcome) (now : Q)
    : Py unit :=
  print_status bars;;
  st ← get;
  (if 0 <? votes_since_last_upload st then
     _ ← upload_to_thingspeak o now; mret tt
   else mret tt);;
  mret tt.

(** [main]: start, run the loop for the ticks that precede the
    interrupt, then handle the interrupt. *)
Definition main (com_port : option string) (bars : Z -> bar_outcome) (now : Q)
    (serial_opens : bool) (ts : list tick) (final_bars : Z -> bar_outcome)
    (o : post_outcome) (final_now : Q) : Py unit :=
  startup com_port bars now serial_opens;;
  loop ts;;
  on_interrupt final_bars o final_now.

(** Exit status of the process: 0 when [main] returns, the argument of
    [sys.exit], 1 for an exception that nobody caught. *)
Definition exit_code (r : result unit) : Z :=
  match r with
  | Ok _ => 0
  | Raise (SystemExit code) => code
  | Raise _ => 1
  end.

End Remote.

(** ** The two halves of [process_vote], named as the specification names
    them

    [process_vote] first parses the line (the event parser) and then
    updates the tally (the tally store's [record_vote]).  The two
    definitions below are the two halves of its body;
    [process_vote_factor] proves that [process_vote] is their
    composition. *)

(** The parser: [Some cid] is "a vote for [cid]", [None] is "not a vote".
    [int()] raising [ValueError] is the [None] of [PyStr.py_int], which the
    [except ValueError] of [process_vote] turns into "not a vote". *)
Definition parse_vote (line : string) : option Z :=
  match PyStr.split_comma (PyStr.strip line) with
  | [tag; tok] => if String.eqb tag "VOTE" then PyStr.py_int tok else None
  | _ => None
  end.

Definition record_vote (env : vote_env) (candidate_id : Z) : Py bool :=
  st ← get;
  if bool_decide (is_Some (votes st !! candidate_id)) then
    old ← or_raise KeyError (votes st !! candidate_id);
    new ← lift (add_one old);
    set_votes (<[candidate_id := new]> (votes st));;
    st ← get;
    set_votes_since_last_upload (votes_since_last_upload st + 1);;
    log_vote (ve_timestamp env) (ve_log_opens env) candidate_id;;
    save_votes (ve_save_opens env);;
    mret true
  else mret false.

(** [process_vote] called on each line in turn. *)
Fixpoint process_votes (calls : list (vote_env * string)) : Py (list bool) :=
  match calls with
  | [] => mret []
  | (env, line) :: rest =>
      b ← process_vote env line;
      bs ← process_votes rest;
      mret (b :: bs)
  end.

(** ** Well-formed tallies *)

(** Every count is an integer and each of the four candidates has one:
    what the sum and the lookups of [print_status] need in order not to
    raise. *)
Definition ints_only (v : gmap Z pyval) : Prop :=
  forall k x, v !! k = Some x -> exists n, x = PInt n.

Definition has_candidates (v : gmap Z pyval) : Prop :=
  forall k, is_Some (CANDIDATES !! k) -> is_Some (v !! k).

Definition tally_ok (v : gmap Z pyval) : Prop :=
  ints_only v /\ has_candidates v.

(** No integer count is negative.  The tally the process starts with is
    so, votes keep it so, and so is what is read back from a file that
    [save_votes] wrote from such a tally.  With it no count exceeds the
    total, and every bar of [print_status] has at most 20 cells. *)
Definition counts_nonneg (v : gmap Z pyval) : Prop :=
  forall k n, v !! k = Some (PInt n) -> 0 <= n.


(** How one row of [print_status] ends for the tally [v], and how the
    rows of the candidates [cids] end, taken in order up to the first
    that raises. *)
Definition row_result (bars : Z -> bar_outcome) (v : gmap Z pyval)
    (total cid : Z) : result unit :=
  match v !! cid with
  | None => Raise KeyError
  | Some (PInt count) =>
      if (total <=? 0) || (0 <=? count) && (count <=? total) then Ok tt
      else match bars cid with
           | BarBuilt => Ok tt
           | BarMemoryError => Raise MemoryError
           | BarOverflowError => Raise OverflowError
           end
  | Some _ => Raise TypeError
  end.

Fixpoint rows_result (bars : Z -> bar_outcome) (v : gmap Z pyval)
    (total : Z) (cids : list Z) : result unit :=
  match cids with
  | [] => Ok tt
  | cid :: rest =>
      match row_result bars v total cid with
      | Ok _ => rows_result bars v total rest
      | Raise e => Raise e
      end
  end.

(** The count of a candidate, when it has an integer count. *)
Definition count (v : gmap Z pyval) (cid : Z) : option Z :=
  match v !! cid with Some (PInt n) => Some n | _ => None end.

(** Number of upload attempts, and of reads of the local file and of the
    remote state, in a trace. *)
Definition is_post (e : event) : bool :=
  match e with EPost _ => true | _ => false end.
Definition is_load (e : event) : bool :=
  match e with EReadVotes => true | _ => false end.
Definition is_fetch (e : event) : bool :=
  match e with EGet _ => true | _ => false end.
Definition count_events (p : event -> bool) (tr : list event) : nat :=
  length (filter (fun e => p e = true) tr).

(** A push succeeds on status 200 with a body other than ["0"]. *)
Definition push_succeeds (o : post_outcome) : bool :=
  match o with
  | PostResp status_code text => (status_code =? 200) && negb (String.eqb text "0")
  | PostFails => false
  end.

(** The state after a successful [log_vote] and after a successful
    [save_votes]. *)

Definition logged (timestamp : string) (candidate_id : Z) (st : state) : state :=
  let rows :=
    ((if bool_decide (is_Some (log_file st)) then [] else [log_header])
     ++ [[timestamp; PyStr.py_str candidate_id;
          default ("Unknown-" +:+ PyStr.py_str candidate_id)
                  (CANDIDATES !! candidate_id)]])%list in
  mkState (votes st) (votes_since_last_upload st) (last_upload_time st)
          (votes_file st) (Some (default [] (log_file st) ++ rows)%list)
          (EAppendLog rows :: trace st).

Definition saved (st : state) : state :=
  mkState (votes st) (votes_since_last_upload st) (last_upload_time st)
          (Json (json_dump (votes st))) (log_file st)
          (EWriteVotes (json_dump (votes st)) :: trace st).

(** The state after [process_vote] has counted a vote for [cid], whose
    count was [n]: the two counters, then the audit row, then the file. *)
Definition counted (cid n : Z) (st : state) : state :=
  mkState (<[cid := PInt (n + 1)]> (votes st)) (votes_since_last_upload st + 1)
          (last_upload_time st) (votes_file st) (log_file st) (trace st).

Definition after_vote (env : vote_env) (cid n : Z) (st : state) : state :=
  let st1 := counted cid n st in
  let st2 := if ve_log_opens env then logged (ve_timestamp env) cid st1 else st1 in
  if ve_save_opens env then saved st2 else st2.

(** The tally that [load_votes_from_file] reads from the file: the file
    holds a JSON object whose keys all read as integers. *)
Definition local_tally (f : json_file) : option (gmap Z pyval) :=
  match f with
  | Json (PObj items) =>
      match int_keyed items ∅ with Ok m => Some m | Raise _ => None end
  | _ => None
  end.

(** The state after [load_votes_from_file]. *)
Definition loaded (st : state) : state :=
  mkState (default (votes st) (local_tally (votes_file st)))
          (votes_since_last_upload st) (last_upload_time st)
          (votes_file st) (log_file st)
          ((if file_exists (votes_file st) then [EReadVotes] else []) ++ trace st)%list.

(** The dict that [upload_to_thingspeak] sends, when the tally has the
    four entries it reads. *)
Definition payload_dict (key : string) (v : gmap Z pyval)
    : option (list (string * pyval)) :=
  f1 ← v !! 1; f2 ← v !! 2; f3 ← v !! 3; f4 ← v !! 4;
  Some [("api_key", PStr key);
        ("field1", f1); ("field2", f2); ("field3", f3); ("field4", f4)].

(** The state after an upload attempt that sent [payload]: the request is
    in the trace, and a success resets the two upload-control fields. *)
Definition posted (payload : list (string * pyval)) (o : post_outcome)
    (now : Q) (st : state) : state :=
  if push_succeeds o then
    mkState (votes st) 0 now (votes_file st) (log_file st)
            (EPost payload :: trace st)
  else
    mkState (votes st) (votes_since_last_upload st) (last_upload_time st)
            (votes_file st) (log_file st) (EPost payload :: trace st).

(** A failed push: a transport error, a status other than 200, or the
    body ["0"]. *)
Definition push_failed (o : post_outcome) : Prop :=
  match o with
  | PostFails => True
  | PostResp status_code text => status_code <> 200 \/ text = "0"
  end.

(** No count of [v] is larger than the same candidate's count in [v']. *)
Definition counts_le (v v' : gmap Z pyval) : Prop :=
  forall cid n, count v cid = Some n ->
    exists n', count v' cid = Some n' /\ n <= n'.

(** The events appended to the trace between [st] and [st'] all satisfy
    [p]. *)
Definition trace_grows (p : event -> Prop) (st st' : state) : Prop :=
  exists evs, trace st' = (evs ++ trace st)%list /\ Forall p evs.

(** Events of the processing loop that are neither a read of the votes
    file nor a request for the remote state. *)
Definition not_a_read (e : event) : Prop :=
  is_load e = false /\ is_fetch e = false.

(** The part of [loop_body] that handles the serial line. *)
Definition handle_line (t : tick) : Py unit :=
  match t_line t with
  | Some raw =>
      let line := PyStr.strip raw in
      if negb (String.eqb line "") then
        if String.eqb line "READY" then mret tt
        else if PyStr.startswith line "VOTE," then
          _ ← process_vote (t_vote t) line; mret tt
        else mret tt
      else mret tt
  | None => mret tt
  end.

(** [int(data.get(field) or 0)] on the items of a dict. *)
Definition remote_field (field : string) (items : list (string * pyval))
    : result Z :=
  int_of (or_zero (default PNone (obj_get field items))).

(** The four assignments of [fetch_votes_from_thingspeak], in order, up
    to the first one that raises: the tally reached, and whether all four
    were made. *)
Fixpoint assign_all (items : list (string * pyval)) (fields : list (Z * string))
    (v : gmap Z pyval) : gmap Z pyval * bool :=
  match fields with
  | [] => (v, true)
  | (cid, field) :: rest =>
      match remote_field field items with
      | Ok n => assign_all items rest (<[cid := PInt n]> v)
      | Raise _ => (v, false)
      end
  end.

Definition FIELDS : list (Z * string) :=
  [(1, "field1"); (2, "field2"); (3, "field3"); (4, "field4")].

(** The remote state that [fetch_votes_from_thingspeak] accepts: status
    200, a JSON object that has [field1], and four fields that all read as
    integers (a missing or empty field reads as 0). *)
Definition remote_counts (o : get_outcome) : option (gmap Z pyval) :=
  match o with
  | GetResp status_code (Some (PObj items)) =>
      if (status_code =? 200) && bool_decide (is_Some (obj_get "field1" items))
      then
        match assign_all items FIELDS ∅ with
        | (v, true) => Some v
        | (_, false) => None
        end
      else None
  | _ => None
  end.

Definition with_votes (v : gmap Z pyval) (st : state) : state :=
  mkState v (votes_since_last_upload st) (last_upload_time st)
          (votes_file st) (log_file st) (trace st).

Definition with_event (e : event) (st : state) : state :=
  mkState (votes st) (votes_since_last_upload st) (last_upload_time st)
          (votes_file st) (log_file st) (e :: trace st).

(** The state [main] enters the loop in. *)
Definition started (now : Q) (st : state) : state :=
  mkState (votes (loaded st)) (votes_since_last_upload st) now
          (votes_file st) (log_file st) (trace (loaded st)).

(** The specification's [reconcile], in its words: a remote state, when
    there is one, is the tally; otherwise the local file's state;
    otherwise all counts are zero. *)
Definition spec_reconcile (remote local_state : option (gmap Z pyval))
    : gmap Z pyval :=
  match remote, local_state with
  | Some r, _ => r
  | None, Some l => l
  | None, None => initial_votes
  end.

(** The address [fetch_votes_from_thingspeak] requests. *)
Definition fetch_url (rkey chan : string) : string :=
  THINGSPEAK_READ_URL chan +:+ "?api_key=" +:+ rkey.

(** The outcomes of the request for which
    [fetch_votes_from_thingspeak] has no remote state to read: a transport
    error, a status other than 200, a body that is not JSON, or a body
    that is not a dict holding [field1] (an empty channel). *)
Definition remote_unavailable (o : get_outcome) : Prop :=
  match o with
  | GetFails => True
  | GetResp status_code body =>
      status_code <> 200
      \/ match body with
         | None => True
         | Some (PObj items) => obj_get "field1" items = None
         | Some _ => True
         end
  end.

(** The inputs of the counterexample to the remote-first priority at
    startup: a remote state that [fetch_votes_from_thingspeak] would
    accept, and the local file of the specification's example. *)
Definition example_remote : get_outcome :=
  GetResp 200 (Some (PObj [("field1", PStr "7"); ("field2", PStr "0");
                           ("field3", PStr "2"); ("field4", PStr "0")])).

Definition example_file : json_file :=
  Json (PObj [("1", PInt 3); ("2", PInt 5); ("3", PInt 0); ("4", PInt 1)]).

(** ** Decimal numerals

    The value of a numeral of the standard library read from its most
    significant digit, [acc] being the value read so far; and the test
    that every character of a string satisfies [p]. *)
Fixpoint uint_value (d : Decimal.uint) (acc : Z) : Z :=
  match d with
  | Decimal.Nil => acc
  | Decimal.D0 d => uint_value d (10 * acc + 0)
  | Decimal.D1 d => uint_value d (10 * acc + 1)
  | Decimal.D2 d => uint_value d (10 * acc + 2)
  | Decimal.D3 d => uint_value d (10 * acc + 3)
  | Decimal.D4 d => uint_value d (10 * acc + 4)
  | Decimal.D5 d => uint_value d (10 * acc + 5)
  | Decimal.D6 d => uint_value d (10 * acc + 6)
  | Decimal.D7 d => uint_value d (10 * acc + 7)
  | Decimal.D8 d => uint_value d (10 * acc + 8)
  | Decimal.D9 d => uint_value d (10 * acc + 9)
  end.

Fixpoint all_chars (p : ascii -> bool) (s : string) : bool :=
  match s with
  | EmptyString => true
  | String c s' => p c && all_chars p s'
  end.

(** ** Sample inputs, used to instantiate the properties below *)

Definition example_env : vote_env :=
  mkVoteEnv "2024-12-24T10:00:00" true true.

(** A machine on which no bar that the model leaves undecided can be
    built. *)
Definition example_bars : Z -> bar_outcome := fun _ => BarMemoryError.

Definition example_calls : list (vote_env * string) :=
  [(example_env, "VOTE,1"); (example_env, " VOTE,1 ");
   (mkVoteEnv "2024-12-24T10:00:05" false false, "VOTE,+1")].

(** A response whose [field1] reads as 7 and whose [field2] is not a
    number. *)
Definition example_partial : list (string * pyval) :=
  [("field1", PStr "7"); ("field2", PStr "n/a"); ("field3", PStr "2")].

(** The scenario of the specification: two votes for candidate 1, a line
    that is not a vote, then an idle iteration once the interval has
    elapsed, whose push succeeds. *)
Definition example_ticks : list tick :=
  [mkTick (Some "VOTE,1") example_env 101 PostFails 101 example_bars;
   mkTick (Some "VOTE,1") example_env 102 PostFails 102 example_bars;
   mkTick (Some "garbage") example_env 103 PostFails 103 example_bars;
   mkTick None example_env 116 (PostResp 200 "12") 117 example_bars].

(** A state with one vote pending, uploaded to last at time 100. *)
Definition example_pending : state :=
  mkState (<[1 := PInt 1]> initial_votes) 1 100 Missing None [].

(** The run of the scenario up to its third line, and to its end. *)
Definition scenario_after_lines : result unit * state :=
  (startup (Some "COM3") example_bars 100 true;; loop "K" (take 3 example_ticks))
    (initial_state Missing None).

Definition scenario_after_push : result unit * state :=
  (startup (Some "COM3") example_bars 100 true;; loop "K" example_ticks)
    (initial_state Missing None).

(** ** Further definitions, for the properties of the rest of the code *)

(** [','.join(parts)] *)
Fixpoint join_comma (parts : list string) : string :=
  match parts with
  | [] => ""
  | [p] => p
  | p :: rest => p +:+ "," +:+ join_comma rest
  end.

(** The items of a dict read with [int(k)] as key: the entry for [n],
    the last one when several keys read as [n]. *)
Fixpoint int_get (n : Z) (items : list (string * pyval)) : option pyval :=
  match items with
  | [] => None
  | (k, v) :: r =>
      match int_get n r with
      | Some w => Some w
      | None => if decide (PyStr.py_int k = Some n) then Some v else None
      end
  end.

(** The number of calls of [process_votes] whose line is a vote for
    [cid]. *)
Definition votes_for (cid : Z) (calls : list (vote_env * string)) : nat :=
  length (filter (fun c => parse_vote c.2 = Some cid) calls).


(** One iteration of the loop without the three tests that [main] makes
    on the line before it calls [process_vote]: every line that was read
    goes to [process_vote]. *)
Definition loop_body_unguarded (key : string) (t : tick) : Py unit :=
  match t_line t with
  | Some raw => _ ← process_vote (t_vote t) raw; mret tt
  | None => mret tt
  end;;
  due ← should_upload (t_now t);
  if (due : bool) then
    _ ← upload_to_thingspeak key (t_post t) (t_uploaded_at t);
    print_status (t_bars t)
  else mret tt.

(** Strings of white space only. *)
Definition all_space (s : string) : Prop := all_chars PyStr.is_space s = true.

Definition no_comma (s : string) : Prop :=
  all_chars (fun c => negb (Ascii.eqb c ",")) s = true.

(** Whether [process_vote] counts a line, for a tally with the keys
    [known]: the line is a vote for one of them. *)
Definition accepts (known : gset Z) (line : string) : bool :=
  match parse_vote line with
  | Some cid => bool_decide (cid ∈ known)
  | None => false
  end.



(** Whether the line of an iteration is counted, and whether an upload
    is due in the iteration: the interval has elapsed and a vote is
    pending, the one of this iteration included. *)
Definition line_counted (t : tick) (st : state) : bool :=
  match t_line t with
  | Some raw => accepts (dom (votes st)) raw
  | None => false
  end.

Definition upload_due (t : tick) (st : state) : bool :=
  Qle_bool UPLOAD_INTERVAL (t_now t - last_upload_time st)
  && ((0 <? votes_since_last_upload st) || line_counted t st).

(** ** Port discovery

    [str.upper] and [str.lower] on code points below 256.  The upper
    case of [ß] (223) is ["SS"].  Two code points, 181 and 255, have an
    upper case above 255; they are kept as they are, which no comparison
    with the (ASCII) signatures below can tell from their upper case. *)
Definition upper_char (c : ascii) : string :=
  let n := N_of_ascii c in
  if ((97 <=? n) && (n <=? 122))%N then String (ascii_of_N (n - 32)) ""
  else if (n =? 223)%N then "SS"
  else if ((224 <=? n) && (n <=? 254) && negb (n =? 247))%N
       then String (ascii_of_N (n - 32)) ""
  else String c "".

Fixpoint py_upper (s : string) : string :=
  match s with
  | EmptyString => EmptyString
  | String c s' => upper_char c +:+ py_upper s'
  end.



(** A serial port as [serial.tools.list_ports.comports()] lists it. *)
Record port : Type := mkPort {
  device : string;
  description : string
}.

Definition ARDUINO_SIGNATURES : list string :=
  ["CH340"; "CH341"; "FT232"; "FT231"; "Arduino"; "USB Serial";
   "USB-SERIAL"; "ACM"; "ttyUSB"; "ttyACM"].

(** The inner loop of [find_arduino_ports]: the signatures are tried in
    turn, and the first that occurs in the description or in the device
    name appends the port to [arduino_ports] and ends the loop. *)
Fixpoint scan_signatures (signatures : list string) (p : port)
    (arduino_ports : list (string * string)) : list (string * string) :=
  match signatures with
  | [] => arduino_ports
  | signature :: rest =>
      let desc_upper := py_upper (description p) in
      let device_upper := py_upper (device p) in
      if substring_of (py_upper signature) desc_upper
         || substring_of (py_upper signature) device_upper
      then (arduino_ports ++ [(device p, description p)])%list
      else scan_signatures rest p arduino_ports
  end.

(** [find_arduino_ports]; [all_ports] is what [comports()] returns. *)
Definition find_arduino_ports (all_ports : list port) : list (string * string) :=
  foldl (fun arduino_ports p => scan_signatures ARDUINO_SIGNATURES p arduino_ports)
        [] all_ports.




(** Whether one of the signatures occurs in the description or in the
    device name of a port, letter case apart. *)
Definition is_arduino (p : port) : bool :=
  existsb (fun signature =>
             substring_of (py_upper signature) (py_upper (description p))
             || substring_of (py_upper signature) (py_upper (device p)))
          ARDUINO_SIGNATURES.


(** Sample inputs for the properties of the rest of the code. *)
Definition example_ports : list port :=
  [mkPort "COM1" "Communications Port";
   mkPort "COM5" "usb-serial ch340 (COM5)";
   mkPort "/dev/ttyACM0" "Board"].

Definition example_mixed_calls : list (vote_env * string) :=
  [(example_env, "VOTE,1"); (example_env, "READY");
   (mkVoteEnv "2024-12-24T10:00:07" false true, " VOTE, 3 ");
   (example_env, "VOTE,9"); (example_env, "VOTE,1")].


Definition example_text_file : json_file :=
  Json (PObj [("1", PInt 3); ("2", PStr "five"); ("3", PInt 0); ("4", PInt 1)]).

(** An iteration that counts a vote sixteen seconds after the last
    upload, and whose push fails. *)
Definition example_tick : tick :=
  mkTick (Some "VOTE,2") example_env 116 (PostResp 500 "error") 117 example_bars.

(** A local file with an entry for the id 9, which is no candidate's. *)
Definition example_extra_file : json_file :=
  Json (PObj [("1", PInt 0); ("2", PInt 0); ("3", PInt 0); ("4", PInt 0);
              ("9", PInt 0)]).

(** The state in which [main] enters the loop after it has loaded that
    file. *)
Definition example_extra_state : state :=
  (startup (Some "COM3") example_bars 100 true
     (initial_state example_extra_file None)).2.

(** A vote line as the device sends it, with a carriage return and a
    line feed at its end, and one with a tab before it. *)
Definition example_crlf_line : string :=
  "VOTE,2" +:+ String (ascii_of_nat 13) (String (ascii_of_nat 10) "").

Definition example_tab_line : string :=
  String (ascii_of_nat 9) " VOTE,2 ".

(** A vote line that ends in the separator 28, which [str.strip] removes
    and [int] does not accept. *)
Definition example_separator_token : string :=
  String "2" (String (ascii_of_nat 28) "").

(** A tally of integers with a negative count, whose total is 1, with
    one vote pending. *)
Definition example_negative : state :=
  mkState (<[1 := PInt (10 ^ 15)]> (<[2 := PInt (1 - 10 ^ 15)]> initial_votes))
          1 100 Missing None [].

(** * Properties *)

(** ** Strings *)

Example strip_ex : PyStr.strip "  VOTE,2 " = "VOTE,2".
Proof. reflexivity. Qed.
Example split_ex : PyStr.split_comma "VOTE,1,2" = ["VOTE"; "1"; "2"].
Proof. reflexivity. Qed.
Example split_empty_ex : PyStr.split_comma "" = [""].
Proof. reflexivity. Qed.
Example py_int_ex :
  PyStr.py_int " 1_000 " = Some 1000 /\ PyStr.py_int "-07" = Some (-7)
  /\ PyStr.py_int "abc" = None /\ PyStr.py_int "" = None
  /\ PyStr.py_int "1__0" = None /\ PyStr.py_int "+ 1" = None
  /\ PyStr.py_int "12.5" = None.
Proof. repeat split; reflexivity. Qed.

(** [str.strip] removes the separator 28, [int] does not accept it. *)
Example py_int_separator_ex :
  PyStr.strip example_separator_token = "2"
  /\ PyStr.py_int example_separator_token = None
  /\ PyStr.py_int (PyStr.strip example_separator_token) = Some 2.
Proof. repeat split; reflexivity. Qed.
Example py_str_ex : PyStr.py_str 0 = "0" /\ PyStr.py_str (-12) = "-12".
Proof. split; reflexivity. Qed.

(** *** [int(str(n)) == n] *)

Lemma parse_digits_uint d : forall acc,
  PyStr.parse_digits acc true (NilEmpty.string_of_uint d)
  = Some (uint_value d acc).
Proof.
  induction d; intros acc;
    cbn [NilEmpty.string_of_uint PyStr.parse_digits uint_value];
    [reflexivity|exact (IHd _)..].
Qed.

Lemma parse_digits_uint_first d :
  d <> Decimal.Nil ->
  PyStr.parse_digits 0 false (NilEmpty.string_of_uint d) = Some (uint_value d 0).
Proof.
  destruct d; intros Hd; [contradiction|..]; cbn; apply parse_digits_uint.
Qed.

Lemma uint_value_pos d : forall acc,
  Z.pos (Pos.of_uint_acc d acc) = uint_value d (Z.pos acc).
Proof.
  induction d; intros acc; cbn [Pos.of_uint_acc uint_value];
    rewrite ?IHd; try reflexivity; f_equal; lia.
Qed.

Lemma uint_value_of_uint d : Z.of_uint d = uint_value d 0.
Proof.
  unfold Z.of_uint.
  induction d; cbn [Pos.of_uint uint_value Z.of_N];
    try (rewrite uint_value_pos; reflexivity); [reflexivity|exact IHd].
Qed.

Lemma lstrip_no_space s :
  all_chars (fun c => negb (PyStr.is_space c)) s = true -> PyStr.lstrip s = s.
Proof.
  destruct s as [|c s]; [reflexivity|]. cbn [all_chars PyStr.lstrip].
  intros H. apply andb_true_iff in H as [Hc _].
  apply negb_true_iff in Hc. by rewrite Hc.
Qed.

Lemma rstrip_no_space s :
  all_chars (fun c => negb (PyStr.is_space c)) s = true -> PyStr.rstrip s = s.
Proof.
  induction s as [|c s IH]; [reflexivity|]. cbn [all_chars PyStr.rstrip].
  intros H. apply andb_true_iff in H as [Hc Hs].
  apply negb_true_iff in Hc. by rewrite Hc, (IH Hs).
Qed.

Lemma strip_no_space s :
  all_chars (fun c => negb (PyStr.is_space c)) s = true -> PyStr.strip s = s.
Proof.
  intros H. unfold PyStr.strip. rewrite (lstrip_no_space _ H).
  by apply rstrip_no_space.
Qed.

Lemma string_of_uint_no_space d :
  all_chars (fun c => negb (PyStr.is_space c)) (NilEmpty.string_of_uint d) = true.
Proof. induction d; cbn [NilEmpty.string_of_uint all_chars]; auto. Qed.

(** *** White space around a string *)

Lemma lstrip_all_space s : all_space s -> PyStr.lstrip s = "".
Proof.
  unfold all_space. induction s as [|c s IH]; [reflexivity|].
  cbn [all_chars PyStr.lstrip]. intros H.
  apply andb_true_iff in H as [Hc Hs]. rewrite Hc. auto.
Qed.

Lemma rstrip_all_space s : all_space s -> PyStr.rstrip s = "".
Proof.
  unfold all_space. induction s as [|c s IH]; [reflexivity|].
  cbn [all_chars PyStr.rstrip]. intros H.
  apply andb_true_iff in H as [Hc Hs]. by rewrite Hc, (IH Hs).
Qed.

Lemma rstrip_empty_all_space s : PyStr.rstrip s = "" -> all_space s.
Proof.
  unfold all_space. induction s as [|c s IH]; [reflexivity|].
  cbn [all_chars PyStr.rstrip].
  destruct (PyStr.is_space c) eqn:Hc; [|discriminate]. cbn [andb].
  destruct (PyStr.rstrip s); [auto|discriminate].
Qed.

Lemma lstrip_app_space w s : all_space w -> PyStr.lstrip (w +:+ s) = PyStr.lstrip s.
Proof.
  unfold all_space. induction w as [|c w IH]; [reflexivity|].
  change (String c w +:+ s) with (String c (w +:+ s)).
  cbn [all_chars PyStr.lstrip]. intros H.
  apply andb_true_iff in H as [Hc Hw]. rewrite Hc. auto.
Qed.

Lemma rstrip_app_space s w : all_space w -> PyStr.rstrip (s +:+ w) = PyStr.rstrip s.
Proof.
  intros Hw. induction s as [|c s IH].
  - by apply rstrip_all_space.
  - change (String c s +:+ w) with (String c (s +:+ w)).
    cbn [PyStr.rstrip]. by rewrite IH.
Qed.

Lemma strip_app_space s w : all_space w -> PyStr.strip (s +:+ w) = PyStr.strip s.
Proof.
  intros Hw. unfold PyStr.strip. induction s as [|c s IH].
  - change ("" +:+ w) with w. by rewrite (lstrip_all_space _ Hw).
  - change (String c s +:+ w) with (String c (s +:+ w)).
    cbn [PyStr.lstrip]. destruct (PyStr.is_space c); [exact IH|].
    by apply (rstrip_app_space (String c s)).
Qed.

Lemma strip_pad w1 s w2 :
  all_space w1 -> all_space w2 ->
  PyStr.strip (w1 +:+ s +:+ w2) = PyStr.strip s.
Proof.
  intros H1 H2. unfold PyStr.strip at 1. rewrite (lstrip_app_space _ _ H1).
  by apply strip_app_space.
Qed.

(** The white space of [int] is white space for [str.strip]. *)
Lemma int_space_is_space c : PyStr.is_int_space c = true -> PyStr.is_space c = true.
Proof.
  destruct c as [[] [] [] [] [] [] [] []]; vm_compute; congruence.
Qed.

Lemma int_strip_no_space s :
  all_chars (fun c => negb (PyStr.is_space c)) s = true ->
  PyStr.int_rstrip (PyStr.int_lstrip s) = s.
Proof.
  intros H.
  assert (Hi : all_chars (fun c => negb (PyStr.is_int_space c)) s = true).
  { revert H. induction s as [|c s IH]; [reflexivity|]. cbn [all_chars].
    rewrite !andb_true_iff, !negb_true_iff. intros [Hc Hs]. split; [|auto].
    destruct (PyStr.is_int_space c) eqn:E; [|reflexivity].
    apply int_space_is_space in E. congruence. }
  clear H.
  assert (Hl : PyStr.int_lstrip s = s).
  { destruct s as [|c s]; [reflexivity|]. cbn [all_chars PyStr.int_lstrip] in *.
    apply andb_true_iff in Hi as [Hc _]. apply negb_true_iff in Hc.
    by rewrite Hc. }
  rewrite Hl. induction s as [|c s IH]; [reflexivity|].
  cbn [all_chars PyStr.int_rstrip] in *.
  apply andb_true_iff in Hi as [Hc Hs]. apply negb_true_iff in Hc.
  rewrite Hc, IH; [reflexivity|exact Hs|].
  destruct s as [|d s]; [reflexivity|]. cbn [all_chars PyStr.int_lstrip] in *.
  apply andb_true_iff in Hs as [Hd _]. apply negb_true_iff in Hd.
  by rewrite Hd.
Qed.

(** [int] reads back what [str] prints. *)
Lemma py_int_py_str n : PyStr.py_int (PyStr.py_str n) = Some n.
Proof.
  unfold PyStr.py_str. pose proof (DecimalZ.of_to n) as Hn.
  destruct n as [|p|p]; [reflexivity|..]; cbn [Z.to_int] in *;
    pose proof (Unsigned.to_uint_nonnil p) as Hnil;
    cbn [Z.of_int] in Hn; rewrite uint_value_of_uint in Hn;
    unfold PyStr.py_int, NilZero.string_of_int, NilZero.string_of_uint.
  - assert (Hs : NilEmpty.string_of_uint (Pos.to_uint p)
                 = PyStr.int_rstrip
                     (PyStr.int_lstrip (NilEmpty.string_of_uint (Pos.to_uint p))))
      by (symmetry; apply int_strip_no_space, string_of_uint_no_space).
    destruct (Pos.to_uint p) eqn:Hd; [contradiction|..];
      rewrite <- Hs; cbn [NilEmpty.string_of_uint];
      rewrite <- Hn; apply (parse_digits_uint_first _ Hnil) || idtac;
      cbn; by rewrite parse_digits_uint.
  - assert (Hs : String "-" (NilEmpty.string_of_uint (Pos.to_uint p))
                 = PyStr.int_rstrip
                     (PyStr.int_lstrip
                        (String "-" (NilEmpty.string_of_uint (Pos.to_uint p))))).
    { symmetry. apply int_strip_no_space. cbn [all_chars].
      by rewrite string_of_uint_no_space. }
    destruct (Pos.to_uint p) eqn:Hd; [contradiction|..];
      rewrite <- Hs; rewrite (parse_digits_uint_first _ Hnil);
      cbn [fmap option_fmap option_map]; f_equal; lia.
Qed.

(** ** The monad *)

Lemma bind_run {A B} (m : Py A) (f : A -> Py B) (st : state) :
  (m ≫= f) st =
  match m st with
  | (Ok a, st') => f a st'
  | (Raise e, st') => (Raise e, st')
  end.
Proof. reflexivity. Qed.

Lemma ret_run {A} (a : A) (st : state) : (mret a : Py A) st = (Ok a, st).
Proof. reflexivity. Qed.

Ltac py_unfold :=
  unfold set_votes, set_votes_since_last_upload, set_last_upload_time,
    set_votes_file, set_log_file, emit in *;
  unfold try_except, or_raise, lift, raise, get, modify,
    mbind, Py_bind, mret, Py_ret in *;
  cbv beta iota in *.

(** ** Files *)

Lemma log_vote_run timestamp can_open cid st :
  log_vote timestamp can_open cid st =
  (Ok tt, if can_open then logged timestamp cid st else st).
Proof. unfold log_vote. py_unfold. destruct can_open; reflexivity. Qed.

Lemma save_votes_run can_open st :
  save_votes can_open st = (Ok tt, if can_open then saved st else st).
Proof. unfold save_votes. py_unfold. destruct can_open; reflexivity. Qed.

(** ** Candidates and well-formed tallies *)

Lemma candidate_cases k :
  is_Some (CANDIDATES !! k) -> k = 1 \/ k = 2 \/ k = 3 \/ k = 4.
Proof.
  unfold CANDIDATES. intros [x H].
  apply lookup_insert_Some in H as [[<- _]|[_ H]]; [auto|].
  apply lookup_insert_Some in H as [[<- _]|[_ H]]; [auto|].
  apply lookup_insert_Some in H as [[<- _]|[_ H]]; [auto|].
  apply lookup_insert_Some in H as [[<- _]|[_ H]]; [auto|].
  rewrite lookup_empty in H. discriminate.
Qed.

Lemma has_candidates_iff v :
  has_candidates v <->
  is_Some (v !! 1) /\ is_Some (v !! 2) /\ is_Some (v !! 3) /\ is_Some (v !! 4).
Proof.
  split.
  - intros H. repeat split; apply H; eexists; reflexivity.
  - intros (H1 & H2 & H3 & H4) k Hk.
    destruct (candidate_cases k Hk) as [->|[->|[->| ->]]]; assumption.
Qed.

Lemma py_sum_ok l : forall acc,
  (exists z, py_sum acc l = Ok z) <-> Forall (fun x => exists n, x = PInt n) l.
Proof.
  induction l as [|x l IH]; intros acc; cbn [py_sum].
  - split; [constructor|eauto].
  - split.
    + intros [z H]. destruct x as [|n| | |]; try discriminate.
      constructor; [eauto|]. apply (IH (acc + n)). eauto.
    + intros H. apply Forall_cons in H as [[n ->] H]. by apply IH.
Qed.

Lemma py_sum_raises l acc e : py_sum acc l = Raise e -> e = TypeError.
Proof.
  revert acc. induction l as [|x l IH]; intros acc; cbn [py_sum].
  - discriminate.
  - destruct x; try (intros [= <-]; reflexivity). apply IH.
Qed.

Lemma ints_only_values v :
  ints_only v <-> Forall (fun x => exists n, x = PInt n) (map_to_list v).*2.
Proof.
  unfold ints_only. rewrite Forall_forall. split.
  - intros H x Hx. apply list_elem_of_fmap in Hx as [[k y] [-> Hy]].
    apply elem_of_map_to_list in Hy. eauto.
  - intros H k x Hk. apply H, list_elem_of_fmap.
    exists (k, x). split; [reflexivity|]. by apply elem_of_map_to_list.
Qed.

(** ** Reading the votes file *)

Lemma int_keyed_raises items : forall acc e,
  int_keyed items acc = Raise e -> e = ValueError.
Proof.
  induction items as [|[k y] items IH]; intros acc e; cbn [int_keyed].
  - discriminate.
  - destruct (PyStr.py_int k); [apply IH|]. by intros [= <-].
Qed.

Lemma load_votes_from_file_run st :
  load_votes_from_file st = (Ok tt, loaded st).
Proof.
  unfold load_votes_from_file, json_load_votes_file, loaded, local_tally.
  py_unfold. destruct st as [v p t f l tr]. cbn.
  destruct f as [| |x]; cbn; try reflexivity.
  destruct x as [|n|s|xs|items]; cbn; try reflexivity.
  destruct (int_keyed items ∅) as [m|e] eqn:E; cbn; [reflexivity|].
  apply int_keyed_raises in E as ->. reflexivity.
Qed.

(** ** [process_vote] *)

Lemma split_two_inv (parts : list string) :
  (length parts =? 2)%nat = true ->
  parts = [nth 0 parts ""; nth 1 parts ""].
Proof.
  destruct parts as [|a [|b [|c r]]]; simpl; try discriminate; reflexivity.
Qed.

Lemma record_vote_unknown env cid st :
  votes st !! cid = None -> record_vote env cid st = (Ok false, st).
Proof.
  intros H. unfold record_vote. py_unfold.
  rewrite bool_decide_eq_false_2; [reflexivity|].
  rewrite H. intros [x Hx]. discriminate.
Qed.

Lemma record_vote_int env cid n st :
  votes st !! cid = Some (PInt n) ->
  record_vote env cid st = (Ok true, after_vote env cid n st).
Proof.
  intros H. unfold record_vote. py_unfold.
  rewrite bool_decide_eq_true_2 by (rewrite H; eauto).
  rewrite H. cbn [add_one].
  rewrite log_vote_run, save_votes_run. reflexivity.
Qed.

Lemma record_vote_not_int env cid x st :
  votes st !! cid = Some x -> (forall n, x <> PInt n) ->
  record_vote env cid st = (Raise TypeError, st).
Proof.
  intros H Hx. unfold record_vote. py_unfold.
  rewrite bool_decide_eq_true_2 by (rewrite H; eauto).
  rewrite H. destruct x; try reflexivity. destruct (Hx n). reflexivity.
Qed.

(** [record_vote] never raises [ValueError]: the [except ValueError] of
    [process_vote] only ever catches the [int()] of the parser. *)
Lemma record_vote_cases env cid st :
  record_vote env cid st = (Ok false, st)
  \/ (exists n, votes st !! cid = Some (PInt n)
               /\ record_vote env cid st = (Ok true, after_vote env cid n st))
  \/ record_vote env cid st = (Raise TypeError, st).
Proof.
  destruct (votes st !! cid) as [x|] eqn:H.
  - destruct x as [|n| | |];
      try (right; right; apply (record_vote_not_int _ _ _ _ H); discriminate).
    right; left. exists n. split; [reflexivity|]. by apply record_vote_int.
  - left. by apply record_vote_unknown.
Qed.

(** [process_vote] is the parser followed by [record_vote]. *)
Lemma process_vote_factor env line st :
  process_vote env line st =
  match parse_vote line with
  | Some cid => record_vote env cid st
  | None => (Ok false, st)
  end.
Proof.
  unfold process_vote, parse_vote.
  set (parts := PyStr.split_comma (PyStr.strip line)).
  destruct ((length parts =? 2)%nat) eqn:Hlen.
  - rewrite (split_two_inv parts Hlen) at 3.
    cbn [andb]. unfold try_except at 1.
    destruct (String.eqb (nth 0 parts "") "VOTE") eqn:Htag.
    + destruct (PyStr.py_int (nth 1 parts "")) as [cid|] eqn:Hint.
      * rewrite bind_run. cbn [or_raise]. rewrite ret_run.
        change (record_vote env cid st) with
          ((fun st0 => record_vote env cid st0) st).
        fold (record_vote env cid).
        destruct (record_vote_cases env cid st) as [H|[(n & _ & H)|H]];
          unfold record_vote in H |- *; rewrite H; reflexivity.
      * reflexivity.
    + reflexivity.
  - cbn [andb]. unfold try_except. rewrite ret_run.
    destruct parts as [|a [|b [|c r]]]; try reflexivity. discriminate.
Qed.

Lemma after_vote_votes env cid n st :
  votes (after_vote env cid n st) = <[cid := PInt (n + 1)]> (votes st).
Proof. unfold after_vote. destruct env as [ts [] []]; reflexivity. Qed.

Lemma after_vote_pending env cid n st :
  votes_since_last_upload (after_vote env cid n st)
  = votes_since_last_upload st + 1.
Proof. unfold after_vote. destruct env as [ts [] []]; reflexivity. Qed.

Lemma after_vote_time env cid n st :
  last_upload_time (after_vote env cid n st) = last_upload_time st.
Proof. unfold after_vote. destruct env as [ts [] []]; reflexivity. Qed.

Lemma parse_vote_iff line cid :
  parse_vote line = Some cid <->
  exists tok, PyStr.split_comma (PyStr.strip line) = ["VOTE"; tok]
              /\ PyStr.py_int tok = Some cid.
Proof.
  unfold parse_vote. split.
  - destruct (PyStr.split_comma (PyStr.strip line)) as [|tag [|tok [|x r]]];
      try discriminate.
    destruct (String.eqb tag "VOTE") eqn:E; [|discriminate].
    apply String.eqb_eq in E. subst tag. eauto.
  - intros (tok & -> & H). cbn. exact H.
Qed.

Lemma process_vote_ints env line st :
  ints_only (votes st) -> exists b st', process_vote env line st = (Ok b, st').
Proof.
  intros Hint. rewrite process_vote_factor.
  destruct (parse_vote line) as [cid|]; [|eauto].
  destruct (votes st !! cid) as [x|] eqn:H.
  - destruct (Hint _ _ H) as [n ->]. rewrite (record_vote_int _ _ _ _ H). eauto.
  - rewrite (record_vote_unknown _ _ _ H). eauto.
Qed.

(** C4.  The event parser.  ["VOTE,2"] is a vote for candidate 2, and
    [process_vote] counts it for a tally that has an integer count for 2;
    ["READY"], the empty line, ["VOTE,abc"] and ["VOTE,1,2"] are not votes.
    White space is trimmed before the line is split: white space before
    and after a line changes nothing, so that the line with a tab and a
    blank before it and the line with a carriage return and a line feed
    after it are votes for 2; white space inside the line is not trimmed
    (["VOTE ,2"] and ["VO TE,2"] are not votes), except around the number,
    where [int] accepts it (["VOTE, 2"]).  A line is a vote for [cid]
    exactly when, once stripped, it splits at its commas into the two
    tokens ["VOTE"] and [tok] with [int(tok) = cid].  Parsing never
    raises: on every line [process_vote] either returns [False] with the
    state untouched (not a vote) or goes on to record the parsed
    candidate, and with a tally of integers it returns on every line. *)
Theorem event_parser_spec :
  parse_vote "VOTE,2" = Some 2
  /\ (forall env st n, votes st !! 2 = Some (PInt n) ->
        process_vote env "VOTE,2" st = (Ok true, after_vote env 2 n st))
  /\ (forall env st line, line ∈ ["READY"; ""; "VOTE,abc"; "VOTE,1,2"] ->
        parse_vote line = None /\ process_vote env line st = (Ok false, st))
  /\ (forall w1 line w2, all_space w1 -> all_space w2 ->
        parse_vote (w1 +:+ line +:+ w2) = parse_vote line)
  /\ parse_vote example_tab_line = Some 2
  /\ parse_vote example_crlf_line = Some 2
  /\ parse_vote "VOTE ,2" = None
  /\ parse_vote "VO TE,2" = None
  /\ parse_vote "VOTE, 2" = Some 2
  /\ (forall line cid,
        parse_vote line = Some cid <->
        exists tok, PyStr.split_comma (PyStr.strip line) = ["VOTE"; tok]
                    /\ PyStr.py_int tok = Some cid)
  /\ (forall env line st,
        process_vote env line st =
        match parse_vote line with
        | Some cid => record_vote env cid st
        | None => (Ok false, st)
        end)
  /\ (forall env line st, ints_only (votes st) ->
        exists b st', process_vote env line st = (Ok b, st')).
Proof.
  split; [reflexivity|]. split.
  { intros env st n H. rewrite process_vote_factor.
    change (parse_vote "VOTE,2") with (Some 2). by apply record_vote_int. }
  split.
  { intros env st line Hin.
    assert (Hnone : parse_vote line = None).
    { repeat (apply elem_of_cons in Hin as [->|Hin]; [reflexivity|]).
      by apply elem_of_nil in Hin. }
    split; [exact Hnone|]. rewrite process_vote_factor, Hnone. reflexivity. }
  split.
  { intros w1 line w2 H1 H2. unfold parse_vote. by rewrite strip_pad. }
  do 5 (split; [reflexivity|]).
  split; [apply parse_vote_iff|].
  split; [apply process_vote_factor|apply process_vote_ints].
Qed.

(** The keys of the tally the process starts with are the candidates, and
    counting a vote keeps the keys. *)
Lemma initial_votes_dom : dom initial_votes = dom CANDIDATES.
Proof. reflexivity. Qed.

Lemma process_vote_dom env line st r st' :
  process_vote env line st = (r, st') -> dom (votes st') = dom (votes st).
Proof.
  rewrite process_vote_factor. destruct (parse_vote line) as [cid|].
  - destruct (record_vote_cases env cid st) as [H|[(n & Hn & H)|H]];
      rewrite H; intros [= <- <-]; try reflexivity.
    rewrite after_vote_votes, dom_insert_L.
    assert (cid ∈ dom (votes st)) by (apply elem_of_dom; eauto).
    apply set_eq. intros k. rewrite elem_of_union, elem_of_singleton.
    split; [intros [->|]; auto|auto].
  - intros [= <- <-]. reflexivity.
Qed.

(** C5, as amended.  The set that [process_vote] tests is the set of keys
    of the tally in memory ([candidate_id in votes]), not [CANDIDATES].  A
    vote for an id that is not a key of the tally is refused:
    [process_vote] returns [False] and the whole state is unchanged, so
    that neither counter moves, no audit row is appended and nothing is
    written to the votes file.  The keys are the four candidates when the
    process starts, and no vote changes them: as long as they are, a vote
    for an id that is not a candidate's is refused.  But a local file that
    is loaded replaces the tally, keys included, and a vote for a key of
    the tally that has an integer count is counted (and logged and saved,
    when the two files can be opened) whether or not the id is a
    candidate's. *)
Theorem unknown_candidate_rejected env line cid st :
  parse_vote line = Some cid ->
  (cid ∉ dom (votes st) -> process_vote env line st = (Ok false, st))
  /\ (dom (votes st) = dom CANDIDATES -> cid ∉ dom CANDIDATES ->
      process_vote env line st = (Ok false, st))
  /\ (forall vf lf, dom (votes (initial_state vf lf)) = dom CANDIDATES)
  /\ (forall r st', process_vote env line st = (r, st') ->
        dom (votes st') = dom (votes st))
  /\ (forall m, local_tally (votes_file st) = Some m ->
        votes (load_votes_from_file st).2 = m)
  /\ (forall n, votes st !! cid = Some (PInt n) ->
        process_vote env line st = (Ok true, after_vote env cid n st)).
Proof.
  intros Hp.
  assert (Hno : cid ∉ dom (votes st) -> process_vote env line st = (Ok false, st)).
  { intros Hk. rewrite process_vote_factor, Hp.
    apply record_vote_unknown. by apply not_elem_of_dom. }
  split; [exact Hno|]. split; [intros Hd Hc; apply Hno; by rewrite Hd|].
  split; [reflexivity|]. split; [apply process_vote_dom|]. split.
  - intros m Hm. rewrite load_votes_from_file_run. cbn [snd loaded votes].
    by rewrite Hm.
  - intros n Hn. rewrite process_vote_factor, Hp. by apply record_vote_int.
Qed.

(** In particular, while the keys of the tally are the candidates, as
    they are when the process starts, a vote for an id that is not a
    candidate's is refused. *)
Lemma unknown_candidate_default env line cid st :
  dom (votes st) = dom CANDIDATES ->
  parse_vote line = Some cid ->
  CANDIDATES !! cid = None ->
  process_vote env line st = (Ok false, st).
Proof.
  intros Hd Hp Hc. rewrite process_vote_factor, Hp.
  apply record_vote_unknown, not_elem_of_dom. rewrite Hd.
  by apply not_elem_of_dom.
Qed.

Lemma process_votes_same cid calls :
  Forall (fun c => parse_vote c.2 = Some cid) calls ->
  forall st n, votes st !! cid = Some (PInt n) ->
  exists st',
    process_votes calls st = (Ok (replicate (length calls) true), st')
    /\ votes st' !! cid = Some (PInt (n + Z.of_nat (length calls)))
    /\ votes_since_last_upload st'
       = votes_since_last_upload st + Z.of_nat (length calls)
    /\ forall k, k <> cid -> votes st' !! k = votes st !! k.
Proof.
  induction 1 as [|[env line] calls Hp _ IH]; intros st n Hn.
  - exists st. cbn. rewrite !Z.add_0_r. auto.
  - cbn [process_votes]. rewrite bind_run, process_vote_factor.
    cbn in Hp. rewrite Hp, (record_vote_int _ _ _ _ Hn).
    destruct (IH (after_vote env cid n st) (n + 1)) as (st' & Hrun & Hc & Hpend & Hoth).
    { rewrite after_vote_votes. apply lookup_insert_eq. }
    exists st'. rewrite bind_run, Hrun, ret_run.
    split; [reflexivity|]. split; [|split].
    + rewrite Hc. f_equal. f_equal. cbn [length]. lia.
    + rewrite Hpend, after_vote_pending. cbn [length]. lia.
    + intros k Hk. rewrite (Hoth k Hk), after_vote_votes.
      by apply lookup_insert_ne.
Qed.

(** The line ["VOTE,<id>"], with the id printed in decimal, is a vote for
    that id. *)
Lemma all_chars_impl (p q : ascii -> bool) s :
  (forall c, p c = true -> q c = true) ->
  all_chars p s = true -> all_chars q s = true.
Proof.
  intros Hpq. induction s as [|c s IH]; [reflexivity|]. cbn [all_chars].
  rewrite !andb_true_iff. intros [Hc Hs]. auto.
Qed.

Lemma split_no_comma s :
  all_chars (fun c => negb (Ascii.eqb c ",")) s = true ->
  PyStr.split_comma s = [s].
Proof.
  induction s as [|c s IH]; [reflexivity|]. cbn [all_chars PyStr.split_comma].
  intros H. apply andb_true_iff in H as [Hc Hs].
  apply negb_true_iff in Hc. by rewrite Hc, (IH Hs).
Qed.

Lemma py_str_chars n :
  all_chars (fun c => negb (PyStr.is_space c) && negb (Ascii.eqb c ","))
            (PyStr.py_str n) = true.
Proof.
  assert (Hu : forall d,
    all_chars (fun c => negb (PyStr.is_space c) && negb (Ascii.eqb c ","))
              (NilEmpty.string_of_uint d) = true).
  { induction d; cbn [NilEmpty.string_of_uint all_chars]; auto. }
  unfold PyStr.py_str.
  destruct n as [|p|p]; [reflexivity|..]; cbn [Z.to_int NilZero.string_of_int];
    unfold NilZero.string_of_uint;
    pose proof (Unsigned.to_uint_nonnil p) as Hnil;
    destruct (Pos.to_uint p) eqn:Hd; try contradiction;
    rewrite <- ?Hd; cbn [all_chars]; rewrite ?Hu; reflexivity.
Qed.

Lemma vote_line_parses cid :
  parse_vote ("VOTE," +:+ PyStr.py_str cid) = Some cid.
Proof.
  pose proof (py_str_chars cid) as Hc. unfold parse_vote.
  rewrite strip_no_space.
  - change ("VOTE," +:+ PyStr.py_str cid)
      with (String "V" (String "O" (String "T" (String "E"
              (String "," (PyStr.py_str cid)))))).
    cbn [PyStr.split_comma]. rewrite split_no_comma.
    + cbn. apply py_int_py_str.
    + revert Hc. apply all_chars_impl. intros c H.
      by apply andb_true_iff in H as [_ H].
  - assert (Hs : all_chars (fun c => negb (PyStr.is_space c))
                   (PyStr.py_str cid) = true).
    { revert Hc. apply all_chars_impl. intros c H.
      by apply andb_true_iff in H as [H _]. }
    change ("VOTE," +:+ PyStr.py_str cid)
      with (String "V" (String "O" (String "T" (String "E"
              (String "," (PyStr.py_str cid)))))).
    cbn [all_chars]. rewrite Hs. reflexivity.
Qed.

(** C3.  From the state the process starts in, [N] calls of
    [process_vote], each on a line that is a vote for the same known
    candidate, all return [True] and leave that candidate's count and the
    pending-upload count both equal to [N].  The line ["VOTE,<id>"] is
    such a line. *)
Theorem repeated_votes_counted cid (calls : list (vote_env * string)) vf lf :
  cid ∈ dom CANDIDATES ->
  Forall (fun c => parse_vote c.2 = Some cid) calls ->
  parse_vote ("VOTE," +:+ PyStr.py_str cid) = Some cid
  /\ exists st',
       process_votes calls (initial_state vf lf)
       = (Ok (replicate (length calls) true), st')
       /\ votes st' !! cid = Some (PInt (Z.of_nat (length calls)))
       /\ votes_since_last_upload st' = Z.of_nat (length calls).
Proof.
  intros Hc Hall. split; [apply vote_line_parses|].
  assert (H0 : votes (initial_state vf lf) !! cid = Some (PInt 0)).
  { apply elem_of_dom, candidate_cases in Hc.
    destruct Hc as [->|[->|[->| ->]]]; reflexivity. }
  destruct (process_votes_same cid calls Hall _ _ H0) as (st' & Hrun & Hv & Hp & _).
  exists st'. split; [exact Hrun|]. split; [exact Hv|]. rewrite Hp. reflexivity.
Qed.

(** ** Reporting *)

Lemma status_row_run bars total cid st :
  status_row bars total cid st = (row_result bars (votes st) total cid, st).
Proof.
  unfold status_row, row_result. py_unfold.
  destruct (votes st !! cid) as [[|count| | |]|]; try reflexivity.
  destruct ((total <=? 0) || (0 <=? count) && (count <=? total));
    [reflexivity|]. by destruct (bars cid).
Qed.

(** [print_status] changes nothing; it ends as the sum does when that
    raises, and as the four rows do otherwise. *)
Lemma print_status_run bars st :
  print_status bars st =
  (match py_sum 0 (map_to_list (votes st)).*2 with
   | Ok total => rows_result bars (votes st) total [1; 2; 3; 4]
   | Raise e => Raise e
   end, st).
Proof.
  unfold print_status. rewrite bind_run. cbn [get]. rewrite bind_run.
  unfold lift. destruct (py_sum 0 _) as [total|e]; [|reflexivity].
  cbn [rows_result].
  repeat (rewrite bind_run, status_row_run;
          destruct (row_result bars (votes st) total _) as [[]|e];
          [|reflexivity]).
  rewrite status_row_run.
  by destruct (row_result bars (votes st) total 4) as [[]|e].
Qed.

Lemma py_sum_bound l : forall acc z,
  Forall (fun x => exists n, x = PInt n /\ 0 <= n) l ->
  py_sum acc l = Ok z ->
  acc <= z /\ forall n, PInt n ∈ l -> acc + n <= z.
Proof.
  induction l as [|x l IH]; intros acc z Hall; cbn [py_sum].
  - intros [= <-]. split; [lia|]. intros n Hn. by apply elem_of_nil in Hn.
  - apply Forall_cons in Hall as [(m & -> & Hm) Hall]. intros Hz.
    destruct (IH _ _ Hall Hz) as [Hle Hin]. split; [lia|].
    intros n Hn. apply elem_of_cons in Hn as [[= ->]|Hn]; [lia|].
    specialize (Hin n Hn). lia.
Qed.

(** With no negative count, no count exceeds the total. *)
Lemma total_bounds v z :
  ints_only v -> counts_nonneg v ->
  py_sum 0 (map_to_list v).*2 = Ok z ->
  forall k n, v !! k = Some (PInt n) -> 0 <= n <= z.
Proof.
  intros Hi Hn Hz k n Hk.
  assert (Hall : Forall (fun x => exists m, x = PInt m /\ 0 <= m)
                        (map_to_list v).*2).
  { apply Forall_forall. intros x Hx.
    apply list_elem_of_fmap in Hx as [[k' y] [-> Hy]].
    apply elem_of_map_to_list in Hy. destruct (Hi _ _ Hy) as [m ->].
    exists m. split; [reflexivity|]. by apply (Hn k'). }
  destruct (py_sum_bound _ _ _ Hall Hz) as [_ Hin].
  split; [by apply (Hn k)|]. apply (Hin n), list_elem_of_fmap.
  exists (k, PInt n). split; [reflexivity|]. by apply elem_of_map_to_list.
Qed.

Lemma rows_result_ok bars v total cids :
  Forall (fun cid => exists n, v !! cid = Some (PInt n) /\ 0 <= n <= total) cids ->
  rows_result bars v total cids = Ok tt.
Proof.
  induction 1 as [|cid cids (n & Hn & Hle) _ IH]; [reflexivity|].
  cbn [rows_result]. unfold row_result. rewrite Hn.
  replace ((0 <=? n) && (n <=? total)) with true
    by (symmetry; apply andb_true_iff; split; apply Z.leb_le; lia).
  by rewrite orb_true_r.
Qed.

Lemma rows_result_inv bars v total cids r :
  rows_result bars v total cids = r ->
  (r = Ok tt -> Forall (fun cid => is_Some (v !! cid)) cids)
  /\ (forall c, r <> Raise (SystemExit c)).
Proof.
  intros <-. induction cids as [|cid cids [IH1 IH2]]; cbn [rows_result].
  - split; [constructor|discriminate].
  - unfold row_result.
    destruct (v !! cid) as [[|count| | |]|] eqn:Hc;
      try (split; discriminate).
    destruct ((total <=? 0) || (0 <=? count) && (count <=? total)).
    + split; [|exact IH2]. intros H. constructor; [eauto|auto].
    + destruct (bars cid); try (split; discriminate).
      split; [|exact IH2]. intros H. constructor; [eauto|auto].
Qed.


Lemma has_candidates_rows v :
  has_candidates v <-> Forall (fun cid => is_Some (v !! cid)) [1; 2; 3; 4].
Proof.
  rewrite has_candidates_iff, !Forall_cons, Forall_nil. tauto.
Qed.

(** From a well-formed tally with no negative count, [print_status]
    returns, whatever the machine. *)
Lemma print_status_ok bars st :
  tally_ok (votes st) -> counts_nonneg (votes st) ->
  print_status bars st = (Ok tt, st).
Proof.
  intros [Hi Hc] Hn. rewrite print_status_run.
  pose proof Hi as Hs. apply ints_only_values, (py_sum_ok _ 0) in Hs as [z Hz].
  rewrite Hz, rows_result_ok; [reflexivity|].
  apply has_candidates_rows in Hc. eapply Forall_impl; [exact Hc|].
  intros cid [x Hx]. destruct (Hi _ _ Hx) as [n ->]. exists n.
  split; [exact Hx|]. by apply (total_bounds _ _ Hi Hn Hz cid).
Qed.

Lemma print_status_returns bars st r st' :
  print_status bars st = (r, st') ->
  st' = st /\ (r = Ok tt -> tally_ok (votes st))
  /\ (forall c, r <> Raise (SystemExit c)).
Proof.
  rewrite print_status_run.
  destruct (py_sum 0 (map_to_list (votes st)).*2) as [z|e] eqn:Hs.
  - intros H.
    assert (Hr : rows_result bars (votes st) z [1; 2; 3; 4] = r) by congruence.
    split; [congruence|].
    destruct (rows_result_inv _ _ _ _ _ Hr) as [Hok Hex].
    split; [|exact Hex]. intros ->. split.
    + apply ints_only_values, (py_sum_ok _ 0). eauto.
    + by apply has_candidates_rows, Hok.
  - apply py_sum_raises in Hs as ->. intros [= <- <-]. by auto.
Qed.

(** *** What [save_votes] writes, [load_votes_from_file] reads back *)

Lemma int_keyed_dump (l : list (Z * pyval)) : forall acc,
  int_keyed ((fun kv => (PyStr.py_str kv.1, kv.2)) <$> l) acc
  = Ok (foldr (fun kv m => <[kv.1 := kv.2]> m) acc (reverse l)).
Proof.
  induction l as [|[k x] l IH]; intros acc; [reflexivity|].
  cbn [fmap list_fmap int_keyed fst snd]. rewrite py_int_py_str.
  change (list_fmap _ _ ?f l) with (f <$> l). rewrite IH.
  by rewrite reverse_cons, foldr_app.
Qed.

Lemma local_tally_json_dump v : local_tally (Json (json_dump v)) = Some v.
Proof.
  unfold local_tally, json_dump. rewrite int_keyed_dump. f_equal. symmetry.
  apply (list_to_map_flip v (reverse (map_to_list v))).
  by rewrite reverse_Permutation.
Qed.

(** After a successful [save_votes], loading the file gives the tally
    that was saved. *)
Lemma save_then_load st : votes (loaded (saved st)) = votes st.
Proof.
  cbn [loaded saved votes votes_file]. by rewrite local_tally_json_dump.
Qed.

(** ** Upload scheduling *)

Lemma should_upload_run now st :
  should_upload now st =
  (Ok (Qle_bool UPLOAD_INTERVAL (now - last_upload_time st)
       && (0 <? votes_since_last_upload st)), st).
Proof.
  unfold should_upload. py_unfold.
  destruct (Qle_bool _ _ && _); reflexivity.
Qed.

Lemma push_failed_iff o : push_failed o <-> push_succeeds o = false.
Proof.
  destruct o as [|c t]; cbn; [tauto|].
  rewrite andb_false_iff, negb_false_iff, Z.eqb_neq, String.eqb_eq. tauto.
Qed.

Lemma payload_dict_ok key v :
  has_candidates v -> exists p, payload_dict key v = Some p.
Proof.
  intros H. apply has_candidates_iff in H as ([? H1] & [? H2] & [? H3] & [? H4]).
  unfold payload_dict. rewrite H1, H2, H3, H4. cbn. eauto.
Qed.

Section Upload.

Context (key : string).

Lemma payload_of_votes_run st :
  payload_of_votes key st =
  (match payload_dict key (votes st) with
   | Some p => Ok p
   | None => Raise KeyError
   end, st).
Proof.
  unfold payload_of_votes, payload_dict. py_unfold.
  destruct (votes st !! 1); [|reflexivity].
  destruct (votes st !! 2); [|reflexivity].
  destruct (votes st !! 3); [|reflexivity].
  destruct (votes st !! 4); reflexivity.
Qed.

Lemma upload_run o now st :
  upload_to_thingspeak key o now st =
  match payload_dict key (votes st) with
  | Some p => (Ok (push_succeeds o), posted p o now st)
  | None => (Raise KeyError, st)
  end.
Proof.
  unfold upload_to_thingspeak, try_except. rewrite bind_run, payload_of_votes_run.
  destruct (payload_dict key (votes st)) as [p|]; [|reflexivity].
  unfold requests_post, posted. py_unfold.
  destruct o as [|c t]; cbn; [reflexivity|].
  destruct ((c =? 200) && negb (String.eqb t "0")); reflexivity.
Qed.

(** C2.  [should_upload] answers [True] exactly when the time elapsed
    since [last_upload_time] is at least [UPLOAD_INTERVAL] and
    [votes_since_last_upload] is positive, and it changes nothing.  With
    a tally that has the four candidates' entries, a push that succeeds
    sets the pending count to 0 and the upload time to the current time
    and returns [True], and a push that fails (transport error, status
    other than 200, or the body ["0"]) returns [False]; a push that fails
    leaves both fields as they were, whatever the tally. *)
Theorem upload_scheduler_spec (now : Q) (st : state) :
  (exists due, should_upload now st = (Ok due, st)
     /\ (due = true <->
         (UPLOAD_INTERVAL <= now - last_upload_time st)%Q
         /\ 0 < votes_since_last_upload st))
  /\ (forall o, has_candidates (votes st) -> push_succeeds o = true ->
        exists st', upload_to_thingspeak key o now st = (Ok true, st')
          /\ votes_since_last_upload st' = 0
          /\ last_upload_time st' = now)
  /\ (forall o, has_candidates (votes st) -> push_failed o ->
        exists st', upload_to_thingspeak key o now st = (Ok false, st')
          /\ votes_since_last_upload st' = votes_since_last_upload st
          /\ last_upload_time st' = last_upload_time st)
  /\ (forall o r st', push_failed o ->
        upload_to_thingspeak key o now st = (r, st') ->
        votes_since_last_upload st' = votes_since_last_upload st
        /\ last_upload_time st' = last_upload_time st).
Proof.
  split; [|split; [|split]].
  - eexists. split; [apply should_upload_run|].
    rewrite andb_true_iff, Qle_bool_iff, Z.ltb_lt. tauto.
  - intros o Hc Ho. destruct (payload_dict_ok key _ Hc) as [p Hp].
    rewrite upload_run, Hp, Ho. eexists. split; [reflexivity|].
    unfold posted. rewrite Ho. split; reflexivity.
  - intros o Hc Ho. apply push_failed_iff in Ho.
    destruct (payload_dict_ok key _ Hc) as [p Hp].
    rewrite upload_run, Hp, Ho. eexists. split; [reflexivity|].
    unfold posted. rewrite Ho. split; reflexivity.
  - intros o r st' Ho. apply push_failed_iff in Ho. rewrite upload_run.
    destruct (payload_dict key (votes st)) as [p|]; intros [= <- <-].
    + unfold posted. rewrite Ho. split; reflexivity.
    + split; reflexivity.
Qed.

End Upload.

(** ** Counts only grow *)

Lemma counts_le_refl v : counts_le v v.
Proof. intros cid n H. exists n. split; [exact H|lia]. Qed.

Lemma counts_le_trans v1 v2 v3 :
  counts_le v1 v2 -> counts_le v2 v3 -> counts_le v1 v3.
Proof.
  intros H12 H23 cid n H. destruct (H12 _ _ H) as (n2 & H2 & Hle).
  destruct (H23 _ _ H2) as (n3 & H3 & Hle'). exists n3. split; [exact H3|lia].
Qed.

Lemma counts_le_incr v cid n :
  v !! cid = Some (PInt n) -> counts_le v (<[cid := PInt (n + 1)]> v).
Proof.
  intros Hn k m Hk. unfold count in *. destruct (decide (k = cid)) as [->|Hne].
  - rewrite Hn in Hk. injection Hk as <-. rewrite lookup_insert_eq.
    exists (n + 1). split; [reflexivity|lia].
  - rewrite lookup_insert_ne by congruence. exists m. split; [exact Hk|lia].
Qed.

Lemma tally_ok_incr v cid n :
  v !! cid = Some (PInt n) -> tally_ok v -> tally_ok (<[cid := PInt (n + 1)]> v).
Proof.
  intros Hn [Hi Hc]. split.
  - intros k x. destruct (decide (k = cid)) as [->|Hne].
    + rewrite lookup_insert_eq. intros [= <-]. eauto.
    + rewrite lookup_insert_ne by congruence. apply Hi.
  - intros k Hk. destruct (decide (k = cid)) as [->|Hne].
    + rewrite lookup_insert_eq. eauto.
    + rewrite lookup_insert_ne by congruence. by apply Hc.
Qed.

Lemma ints_only_incr v cid n : ints_only v -> ints_only (<[cid := PInt n]> v).
Proof.
  intros Hi k x. destruct (decide (k = cid)) as [->|Hne].
  - rewrite lookup_insert_eq. intros [= <-]. eauto.
  - rewrite lookup_insert_ne by congruence. apply Hi.
Qed.

Lemma four_counts_ok a b c d :
  tally_ok (<[1 := PInt a]> (<[2 := PInt b]> (<[3 := PInt c]>
              (<[4 := PInt d]> ∅)))).
Proof.
  split.
  - do 4 apply ints_only_incr. intros k x Hk. by rewrite lookup_empty in Hk.
  - apply has_candidates_iff. repeat split; eexists; reflexivity.
Qed.

Lemma four_counts_nonneg a b c d :
  0 <= a -> 0 <= b -> 0 <= c -> 0 <= d ->
  counts_nonneg (<[1 := PInt a]> (<[2 := PInt b]> (<[3 := PInt c]>
                   (<[4 := PInt d]> ∅)))).
Proof.
  intros Ha Hb Hc Hd k n Hk.
  repeat (apply lookup_insert_Some in Hk as [[_ [= <-]]|[_ Hk]]; [lia|]).
  by rewrite lookup_empty in Hk.
Qed.

Lemma counts_nonneg_incr v cid n :
  v !! cid = Some (PInt n) -> counts_nonneg v ->
  counts_nonneg (<[cid := PInt (n + 1)]> v).
Proof.
  intros Hn Hv k m. destruct (decide (k = cid)) as [->|Hne].
  - rewrite lookup_insert_eq. intros [= <-]. specialize (Hv _ _ Hn). lia.
  - rewrite lookup_insert_ne by congruence. apply Hv.
Qed.

Lemma initial_votes_nonneg : counts_nonneg initial_votes.
Proof.
  intros k n Hk. unfold initial_votes in Hk.
  repeat (apply lookup_insert_Some in Hk as [[_ [= <-]]|[_ Hk]]; [lia|]).
  by rewrite lookup_empty in Hk.
Qed.

Lemma trace_grows_refl p st : trace_grows p st st.
Proof. exists []. split; [reflexivity|constructor]. Qed.

Lemma trace_grows_trans p st1 st2 st3 :
  trace_grows p st1 st2 -> trace_grows p st2 st3 -> trace_grows p st1 st3.
Proof.
  intros (e1 & H1 & F1) (e2 & H2 & F2). exists (e2 ++ e1)%list.
  split; [by rewrite H2, H1, app_assoc|by apply Forall_app].
Qed.

Lemma count_events_app p (l1 l2 : list event) :
  count_events p (l1 ++ l2) = (count_events p l1 + count_events p l2)%nat.
Proof. unfold count_events. by rewrite filter_app, length_app. Qed.

Lemma count_events_none p (l : list event) :
  Forall (fun e => p e = false) l -> count_events p l = 0%nat.
Proof.
  unfold count_events. induction 1 as [|e l He _ IH]; [reflexivity|].
  rewrite filter_cons_False; [exact IH|]. by rewrite He.
Qed.

Lemma after_vote_trace env cid n st :
  trace_grows (fun e => not_a_read e /\ is_post e = false) st (after_vote env cid n st).
Proof.
  unfold after_vote, trace_grows, not_a_read.
  destruct env as [ts [] []]; cbn; eexists;
    (split; [symmetry; first
       [ exact (app_nil_l _)
       | exact (eq_refl : ([_] ++ _)%list = _)
       | exact (eq_refl : ([_; _] ++ _)%list = _) ]
     | repeat constructor]).
Qed.

(** ** The processing loop *)

Lemma handle_line_cases t st :
  tally_ok (votes st) ->
  exists st1, handle_line t st = (Ok tt, st1)
    /\ (st1 = st
        \/ exists cid n, votes st !! cid = Some (PInt n)
                         /\ st1 = after_vote (t_vote t) cid n st).
Proof.
  intros [Hi _]. unfold handle_line.
  destruct (t_line t) as [raw|]; [|eauto].
  destruct (negb _); [|eauto].
  destruct (String.eqb _ "READY"); [eauto|].
  destruct (PyStr.startswith _ _); [|eauto].
  rewrite bind_run, process_vote_factor.
  destruct (parse_vote _) as [cid|]; [|eauto].
  destruct (votes st !! cid) as [x|] eqn:H.
  - destruct (Hi _ _ H) as [n ->]. rewrite (record_vote_int _ _ _ _ H).
    eexists. split; [reflexivity|]. right. eauto.
  - rewrite (record_vote_unknown _ _ _ H). eauto.
Qed.

Lemma loop_body_eq key t :
  loop_body key t =
  (handle_line t;;
   due ← should_upload (t_now t);
   if (due : bool) then
     _ ← upload_to_thingspeak key (t_post t) (t_uploaded_at t);
     print_status (t_bars t)
   else mret tt).
Proof. reflexivity. Qed.

Lemma posted_votes p o now st : votes (posted p o now st) = votes st.
Proof. unfold posted. destruct (push_succeeds o); reflexivity. Qed.

Lemma posted_trace p o now st : trace (posted p o now st) = EPost p :: trace st.
Proof. unfold posted. destruct (push_succeeds o); reflexivity. Qed.

Section Runner.

Context (key : string).

(** One iteration of the loop, from a well-formed tally: it first handles
    the line (a vote is counted or nothing changes) and then, when an
    upload is due, attempts exactly one upload and ends as the
    [print_status] that follows it. *)
Lemma loop_body_cases t st :
  tally_ok (votes st) ->
  exists st1,
    (st1 = st
     \/ exists cid n, votes st !! cid = Some (PInt n)
                      /\ st1 = after_vote (t_vote t) cid n st)
    /\ tally_ok (votes st1)
    /\ ((should_upload (t_now t) st1 = (Ok false, st1)
         /\ loop_body key t st = (Ok tt, st1))
        \/ (should_upload (t_now t) st1 = (Ok true, st1)
            /\ exists p, payload_dict key (votes st1) = Some p
                 /\ loop_body key t st
                    = print_status (t_bars t)
                        (posted p (t_post t) (t_uploaded_at t) st1))).
Proof.
  intros Hok. destruct (handle_line_cases t st Hok) as (st1 & Hrun & Hst1).
  exists st1. split; [exact Hst1|].
  assert (Hok1 : tally_ok (votes st1)).
  { destruct Hst1 as [->|(cid & n & Hn & ->)]; [exact Hok|].
    rewrite after_vote_votes. by apply tally_ok_incr. }
  split; [exact Hok1|].
  rewrite loop_body_eq, bind_run, Hrun, bind_run.
  destruct (should_upload (t_now t) st1) as [r st1'] eqn:Hdue.
  rewrite should_upload_run in Hdue. injection Hdue as <- <-.
  destruct (Qle_bool _ _ && _) eqn:Hb.
  - right. split; [reflexivity|].
    destruct (payload_dict_ok key _ (proj2 Hok1)) as [p Hp]. exists p.
    split; [exact Hp|]. by rewrite bind_run, upload_run, Hp.
  - left. split; reflexivity.
Qed.

Lemma count_posts_posted p o now st :
  count_events is_post (trace (posted p o now st))
  = S (count_events is_post (trace st)).
Proof. rewrite posted_trace. reflexivity. Qed.

Lemma count_posts_after_vote env cid n st :
  count_events is_post (trace (after_vote env cid n st))
  = count_events is_post (trace st).
Proof.
  destruct (after_vote_trace env cid n st) as (evs & -> & Hevs).
  rewrite count_events_app, count_events_none; [reflexivity|].
  eapply Forall_impl; [exact Hevs|]. by intros e [_ He].
Qed.

(** What an iteration does to the state does not depend on how it ends;
    it ends normally when no upload is due, and always when the tally has
    no negative count. *)
Lemma loop_body_step t st :
  tally_ok (votes st) -> 0 <= votes_since_last_upload st ->
  exists r st', loop_body key t st = (r, st')
    /\ tally_ok (votes st')
    /\ counts_le (votes st) (votes st')
    /\ 0 <= votes_since_last_upload st'
    /\ trace_grows not_a_read st st'
    /\ (votes_since_last_upload st <= votes_since_last_upload st'
          /\ last_upload_time st' = last_upload_time st
        \/ push_succeeds (t_post t) = true
           /\ count_events is_post (trace st')
              = S (count_events is_post (trace st))
           /\ votes_since_last_upload st' = 0
           /\ last_upload_time st' = t_uploaded_at t)
    /\ (forall c, r <> Raise (SystemExit c))
    /\ (counts_nonneg (votes st) -> r = Ok tt /\ counts_nonneg (votes st')).
Proof.
  intros Hok Hp.
  destruct (loop_body_cases t st Hok) as (st1 & Hst1 & Hok1 & Hrest).
  assert (H1 : counts_le (votes st) (votes st1)
               /\ votes_since_last_upload st <= votes_since_last_upload st1
               /\ last_upload_time st1 = last_upload_time st
               /\ trace_grows not_a_read st st1
               /\ count_events is_post (trace st1)
                  = count_events is_post (trace st)
               /\ (counts_nonneg (votes st) -> counts_nonneg (votes st1))).
  { destruct Hst1 as [->|(cid & n & Hn & ->)].
    - split; [apply counts_le_refl|]. split; [lia|]. split; [reflexivity|].
      split; [apply trace_grows_refl|]. split; [reflexivity|auto].
    - rewrite after_vote_votes, after_vote_pending, after_vote_time,
        count_posts_after_vote.
      split; [by apply counts_le_incr|]. split; [lia|]. split; [reflexivity|].
      split; [|split; [reflexivity|by apply counts_nonneg_incr]].
      destruct (after_vote_trace (t_vote t) cid n st) as (evs & He & Hevs).
      exists evs. split; [exact He|].
      eapply Forall_impl; [exact Hevs|]. by intros e [He' _]. }
  destruct H1 as (Hle & Hpend & Htime & Htr & Hposts & Hnn).
  destruct Hrest as [[_ Hrun]|[_ (p & _ & Hrun)]].
  - exists (Ok tt), st1. split; [exact Hrun|]. split; [exact Hok1|].
    split; [exact Hle|]. split; [lia|]. split; [exact Htr|].
    split; [left; split; [lia|exact Htime]|]. split; [discriminate|auto].
  - destruct (print_status (t_bars t)
                (posted p (t_post t) (t_uploaded_at t) st1)) as [r st'] eqn:Hps.
    destruct (print_status_returns _ _ _ _ Hps) as (-> & _ & Hex).
    exists r, (posted p (t_post t) (t_uploaded_at t) st1).
    split; [by rewrite Hrun|]. rewrite posted_votes.
    split; [exact Hok1|]. split; [exact Hle|].
    assert (Htr' : trace_grows not_a_read st
                     (posted p (t_post t) (t_uploaded_at t) st1)).
    { eapply trace_grows_trans; [exact Htr|].
      exists [EPost p]. split; [apply posted_trace|].
      repeat constructor. }
    assert (Hr : counts_nonneg (votes st) ->
                 r = Ok tt /\ counts_nonneg (votes st1)).
    { intros Hn. split; [|auto].
      rewrite print_status_ok in Hps; [congruence| |];
        rewrite posted_votes; auto. }
    rewrite count_posts_posted, Hposts. unfold posted in Htr' |- *.
    destruct (push_succeeds (t_post t)); cbn.
    + split; [lia|]. split; [exact Htr'|]. split; [right; auto|]. auto.
    + split; [lia|]. split; [exact Htr'|].
      split; [left; split; [lia|exact Htime]|]. auto.
Qed.

(** The loop from a well-formed tally: counts only grow and nothing is
    read from the file or the remote state while it runs, however it
    ends; it never raises when the tally has no negative count. *)
Lemma loop_run ts : forall st,
  tally_ok (votes st) -> 0 <= votes_since_last_upload st ->
  exists r st', loop key ts st = (r, st')
    /\ tally_ok (votes st')
    /\ counts_le (votes st) (votes st')
    /\ 0 <= votes_since_last_upload st'
    /\ trace_grows not_a_read st st'
    /\ (forall c, r <> Raise (SystemExit c))
    /\ (counts_nonneg (votes st) -> r = Ok tt /\ counts_nonneg (votes st')).
Proof.
  induction ts as [|t ts IH]; intros st Hok Hp.
  - exists (Ok tt), st. split; [reflexivity|]. split; [exact Hok|].
    split; [apply counts_le_refl|]. split; [exact Hp|].
    split; [apply trace_grows_refl|]. split; [discriminate|auto].
  - destruct (loop_body_step t st Hok Hp)
      as (r1 & st1 & Hrun & Hok1 & Hle & Hp1 & Htr & _ & Hex & Hnn).
    cbn [loop]. rewrite bind_run, Hrun. destruct r1 as [[]|e].
    + destruct (IH st1 Hok1 Hp1) as (r & st' & Hrun' & Hok' & Hle' & Hp' & Htr' & Hex' & Hnn').
      exists r, st'. split; [exact Hrun'|]. split; [exact Hok'|].
      split; [by eapply counts_le_trans|]. split; [exact Hp'|].
      split; [by eapply trace_grows_trans|]. split; [exact Hex'|].
      intros Hn. apply Hnn'. by apply Hnn.
    + exists (Raise e), st1. split; [reflexivity|]. split; [exact Hok1|].
      split; [exact Hle|]. split; [exact Hp1|]. split; [exact Htr|].
      split; [exact Hex|]. intros Hn. by destruct (Hnn Hn).
Qed.

(** ** Startup *)

Lemma startup_run com_port bars now serial_opens st :
  startup com_port bars now serial_opens st =
  match com_port with
  | None => (Raise (SystemExit 1), st)
  | Some _ =>
      match print_status bars (loaded st) with
      | (Ok _, _) =>
          (if serial_opens then Ok tt else Raise (SystemExit 1), started now st)
      | (Raise e, _) => (Raise e, loaded st)
      end
  end.
Proof.
  unfold startup. destruct com_port as [port|]; [|reflexivity].
  rewrite bind_run, ret_run, bind_run, load_votes_from_file_run, bind_run.
  destruct (print_status bars (loaded st)) as [r st1] eqn:Hps.
  destruct (print_status_returns _ _ _ _ Hps) as (-> & _ & _).
  destruct r as [[]|e]; [|reflexivity].
  destruct serial_opens; reflexivity.
Qed.

Lemma startup_ok_inv com_port bars now serial_opens st st0 :
  startup com_port bars now serial_opens st = (Ok tt, st0) ->
  is_Some com_port /\ serial_opens = true
  /\ tally_ok (votes (loaded st)) /\ st0 = started now st.
Proof.
  rewrite startup_run.
  destruct com_port as [port|]; [|discriminate].
  destruct (print_status bars (loaded st)) as [r st1] eqn:Hps.
  destruct (print_status_returns _ _ _ _ Hps) as (-> & Hok & _).
  destruct r as [[]|e]; [|discriminate].
  destruct serial_opens; [|discriminate]. intros [= <-]. eauto.
Qed.

Lemma startup_ok com_port bars now serial_opens st :
  is_Some com_port -> serial_opens = true ->
  tally_ok (votes (loaded st)) -> counts_nonneg (votes (loaded st)) ->
  startup com_port bars now serial_opens st = (Ok tt, started now st).
Proof.
  intros [port ->] -> Hok Hn. rewrite startup_run.
  by rewrite (print_status_ok _ _ Hok Hn).
Qed.

Lemma started_trace now st :
  trace (started now st)
  = ((if file_exists (votes_file st) then [EReadVotes] else []) ++ trace st)%list.
Proof. reflexivity. Qed.

(** ** Shutdown *)

Lemma on_interrupt_run bars o now st :
  tally_ok (votes st) ->
  exists r st', on_interrupt key bars o now st = (r, st')
    /\ votes st' = votes st
    /\ trace_grows not_a_read st st'
    /\ (forall c, r <> Raise (SystemExit c))
    /\ (r = Ok tt ->
        count_events is_post (trace st')
        = (count_events is_post (trace st)
           + if (0 <? votes_since_last_upload st)%Z then 1 else 0)%nat)
    /\ (counts_nonneg (votes st) -> r = Ok tt).
Proof.
  intros Hok. unfold on_interrupt. rewrite bind_run.
  destruct (print_status bars st) as [r st1] eqn:Hps.
  destruct (print_status_returns _ _ _ _ Hps) as (-> & _ & Hex).
  destruct r as [[]|e].
  2:{ exists (Raise e), st. split; [reflexivity|]. split; [reflexivity|].
      split; [apply trace_grows_refl|]. split; [exact Hex|].
      split; [discriminate|]. intros Hn.
      rewrite (print_status_ok _ _ Hok Hn) in Hps. congruence. }
  rewrite bind_run. cbn [get].
  destruct (0 <? votes_since_last_upload st).
  - destruct (payload_dict_ok key _ (proj2 Hok)) as [p Hp].
    rewrite !bind_run, upload_run, Hp, !ret_run.
    eexists _, _. split; [reflexivity|]. rewrite posted_votes, count_posts_posted.
    split; [reflexivity|]. split; [|split; [discriminate|split; [lia|auto]]].
    exists [EPost p]. split; [apply posted_trace|repeat constructor].
  - rewrite bind_run, !ret_run. exists (Ok tt), st. split; [reflexivity|].
    split; [reflexivity|]. split; [apply trace_grows_refl|].
    split; [discriminate|split; [lia|auto]].
Qed.

(** [main] once its startup has succeeded: its later steps read neither
    the file nor the remote state, however they end; it returns when the
    tally has no negative count, after one last upload attempt when a
    vote is pending and none otherwise. *)
Lemma main_run com_port bars now serial_opens ts final_bars o final_now st st0 :
  startup com_port bars now serial_opens st = (Ok tt, st0) ->
  0 <= votes_since_last_upload st ->
  exists r1 st1 r stf,
    loop key ts st0 = (r1, st1)
    /\ main key com_port bars now serial_opens ts final_bars o final_now st
       = (r, stf)
    /\ trace_grows not_a_read st0 stf
    /\ (forall c, r <> Raise (SystemExit c))
    /\ (counts_nonneg (votes st0) ->
        r1 = Ok tt /\ r = Ok tt
        /\ count_events is_post (trace stf)
           = (count_events is_post (trace st1)
              + if (0 <? votes_since_last_upload st1)%Z then 1 else 0)%nat).
Proof.
  intros Hstart Hp. pose proof Hstart as Hs.
  apply startup_ok_inv in Hs as (_ & _ & Hok0 & ->).
  destruct (loop_run ts (started now st))
    as (r1 & st1 & Hrun & Hok & _ & _ & Htr & Hex & Hnn); [exact Hok0|exact Hp|].
  exists r1, st1. unfold main. rewrite bind_run, Hstart, bind_run, Hrun.
  destruct r1 as [[]|e].
  - destruct (on_interrupt_run final_bars o final_now st1 Hok)
      as (r & stf & Hfin & _ & Htr' & Hex' & Hposts & Hret).
    exists r, stf. split; [reflexivity|]. split; [exact Hfin|].
    split; [by eapply trace_grows_trans|]. split; [exact Hex'|].
    intros Hn. destruct (Hnn Hn) as [_ Hn1]. specialize (Hret Hn1).
    split; [reflexivity|]. split; [exact Hret|]. by apply Hposts.
  - exists (Raise e), st1. split; [reflexivity|]. split; [reflexivity|].
    split; [exact Htr|]. split; [exact Hex|].
    intros Hn. by destruct (Hnn Hn).
Qed.

(** C6.  In a run, that is from the state [st0] in which [main] enters the
    loop and after any number of iterations, no count is below its value
    in [st0] and the pending count is not negative; from the state [st]
    so reached, every further iteration leaves no count smaller and the
    pending count non-negative, and the pending count either did not
    decrease or was set to zero by an upload of this iteration that
    succeeded.  This holds however the iterations end; and when the tally
    that was loaded has no negative count, they all end normally: the
    loop never raises.  The same holds of the two operations that write
    these fields: a [process_vote] call never lowers a count or the
    pending count, and an upload leaves the tally as it is and the
    pending count unchanged unless it succeeds. *)
Theorem run_invariants com_port bars now serial_opens vf lf st0 (ts : list tick) :
  startup com_port bars now serial_opens (initial_state vf lf) = (Ok tt, st0) ->
  exists r st, loop key ts st0 = (r, st)
    /\ (counts_nonneg (votes st0) -> r = Ok tt)
    /\ counts_le (votes st0) (votes st)
    /\ 0 <= votes_since_last_upload st
    /\ (forall t, exists r' st', loop_body key t st = (r', st')
          /\ (counts_nonneg (votes st0) -> r' = Ok tt)
          /\ counts_le (votes st) (votes st')
          /\ 0 <= votes_since_last_upload st'
          /\ (votes_since_last_upload st <= votes_since_last_upload st'
              \/ push_succeeds (t_post t) = true
                 /\ count_events is_post (trace st')
                    = S (count_events is_post (trace st))
                 /\ votes_since_last_upload st' = 0))
    /\ (forall env line, exists b st',
          process_vote env line st = (Ok b, st')
          /\ counts_le (votes st) (votes st')
          /\ votes_since_last_upload st <= votes_since_last_upload st')
    /\ (forall o now', exists st',
          upload_to_thingspeak key o now' st = (Ok (push_succeeds o), st')
          /\ votes st' = votes st
          /\ votes_since_last_upload st'
             = if push_succeeds o then 0 else votes_since_last_upload st).
Proof.
  intros Hstart. apply startup_ok_inv in Hstart as (_ & _ & Hok0 & ->).
  destruct (loop_run ts (started now (initial_state vf lf)))
    as (r & st & Hrun & Hok & Hle & Hp & _ & _ & Hnn); [exact Hok0|cbn; lia|].
  exists r, st. split; [exact Hrun|]. split; [by intros Hn; apply Hnn|].
  split; [exact Hle|]. split; [exact Hp|].
  split; [|split].
  - intros t.
    destruct (loop_body_step t st Hok Hp)
      as (r' & st' & Hb & _ & Hle' & Hp' & _ & Hcases & _ & Hnn').
    exists r', st'. split; [exact Hb|].
    split; [by intros Hn; apply Hnn', Hnn|].
    split; [exact Hle'|]. split; [exact Hp'|].
    destruct Hcases as [[H _]|(H1 & H2 & H3 & _)]; [by left|by right].
  - intros env line. rewrite process_vote_factor.
    destruct (parse_vote line) as [cid|].
    + destruct (votes st !! cid) as [x|] eqn:Hx.
      * destruct (proj1 Hok _ _ Hx) as [n ->].
        rewrite (record_vote_int _ _ _ _ Hx). eexists _, _.
        split; [reflexivity|]. rewrite after_vote_votes, after_vote_pending.
        split; [by apply counts_le_incr|lia].
      * rewrite (record_vote_unknown _ _ _ Hx). eexists _, _.
        split; [reflexivity|]. split; [apply counts_le_refl|lia].
    + eexists _, _. split; [reflexivity|]. split; [apply counts_le_refl|lia].
  - intros o now'. destruct (payload_dict_ok key _ (proj2 Hok)) as [p Hpd].
    rewrite upload_run, Hpd. eexists. split; [reflexivity|].
    rewrite posted_votes. split; [reflexivity|].
    unfold posted. destruct (push_succeeds o); reflexivity.
Qed.

(** Why the tally must have no negative count.  With a total of 1 and a
    count of [10 ^ 15], the bar of candidate 1 has [2 * 10 ^ 16] cells: on
    a machine that cannot hold it, the handler dies in its
    [print_status], before the upload, and the exit status is 1. *)
Example interrupt_can_die :
  tally_ok (votes example_negative)
  /\ 0 < votes_since_last_upload example_negative
  /\ on_interrupt key example_bars PostFails 101 example_negative
     = (Raise MemoryError, example_negative)
  /\ exit_code (Raise MemoryError : result unit) = 1.
Proof.
  split; [|repeat apply conj; vm_compute; reflexivity].
  split.
  - do 2 apply ints_only_incr. apply (four_counts_ok 0 0 0 0).
  - apply has_candidates_iff. repeat split; eexists; reflexivity.
Qed.


End Runner.

(** ** The remote state *)

Lemma int_of_raises x e : int_of x = Raise e -> is_Exception e = true.
Proof.
  destruct x as [|n|s|l|items]; cbn; try (by intros [= <-]).
  destruct (PyStr.py_int s); [discriminate|]. by intros [= <-].
Qed.

Lemma assign_all_flag items fields : forall v v',
  (assign_all items fields v).2 = (assign_all items fields v').2.
Proof.
  induction fields as [|[cid f] fields IH]; intros v v'; cbn [assign_all].
  - reflexivity.
  - destruct (remote_field f items); [apply IH|reflexivity].
Qed.

(** Closes a branch of [fetch_votes_from_thingspeak] that ends in the
    fallback to the local file. *)
Ltac fallback :=
  try unfold assign_field; py_unfold; cbn;
  rewrite ?load_votes_from_file_run; reflexivity.

Section Fetch.

Context (rkey chan : string).

Lemma assign_field_run cid field items st :
  assign_field cid field (PObj items) st =
  match remote_field field items with
  | Ok n => (Ok tt, with_votes (<[cid := PInt n]> (votes st)) st)
  | Raise e => (Raise e, st)
  end.
Proof.
  unfold assign_field, remote_field. py_unfold. cbn [py_get].
  destruct (int_of _); reflexivity.
Qed.

Lemma fetch_obj_run status_code items st :
  status_code = 200 -> is_Some (obj_get "field1" items) ->
  fetch_votes_from_thingspeak rkey chan
    (GetResp status_code (Some (PObj items))) st =
  match assign_all items FIELDS (votes st) with
  | (v, true) => (Ok true, with_votes v (with_event (EGet (fetch_url rkey chan)) st))
  | (v, false) =>
      (Ok false, loaded (with_votes v (with_event (EGet (fetch_url rkey chan)) st)))
  end.
Proof.
  intros -> Hf1.
  assert (Ht : truthy (PObj items) = true).
  { destruct items; [destruct Hf1; discriminate|reflexivity]. }
  unfold fetch_votes_from_thingspeak, requests_get.
  rewrite bind_run. unfold try_except at 1.
  rewrite !bind_run. cbn [emit modify]. rewrite ret_run. cbn [fst snd Z.eqb Pos.eqb].
  rewrite bind_run. cbn [or_raise]. rewrite ret_run, bind_run, Ht.
  cbn [lift contains]. rewrite bool_decide_eq_true_2 by exact Hf1.
  unfold FIELDS. cbn [assign_all].
  rewrite bind_run, assign_field_run.
  destruct (remote_field "field1" items) as [n1|e1] eqn:E1;
    [|rewrite (int_of_raises _ _ E1), ret_run, bind_run,
        load_votes_from_file_run; reflexivity].
  rewrite bind_run, assign_field_run.
  destruct (remote_field "field2" items) as [n2|e2] eqn:E2;
    [|rewrite (int_of_raises _ _ E2), ret_run, bind_run,
        load_votes_from_file_run; reflexivity].
  rewrite bind_run, assign_field_run.
  destruct (remote_field "field3" items) as [n3|e3] eqn:E3;
    [|rewrite (int_of_raises _ _ E3), ret_run, bind_run,
        load_votes_from_file_run; reflexivity].
  rewrite bind_run, assign_field_run.
  destruct (remote_field "field4" items) as [n4|e4] eqn:E4;
    [|rewrite (int_of_raises _ _ E4), ret_run, bind_run,
        load_votes_from_file_run; reflexivity].
  reflexivity.
Qed.

Lemma fetch_unavailable_run o st :
  remote_unavailable o ->
  fetch_votes_from_thingspeak rkey chan o st =
  (Ok false, loaded (with_event (EGet (fetch_url rkey chan)) st)).
Proof.
  intros Hu. unfold fetch_votes_from_thingspeak, requests_get.
  rewrite bind_run. unfold try_except at 1. rewrite !bind_run.
  cbn [emit modify].
  destruct o as [|c body]; [fallback|].
  rewrite ret_run. cbn [fst snd].
  destruct (c =? 200) eqn:Hc; [|fallback].
  apply Z.eqb_eq in Hc. destruct Hu as [Hu|Hu]; [contradiction|].
  destruct body as [data|]; [|fallback].
  rewrite bind_run. cbn [or_raise]. rewrite ret_run, bind_run.
  destruct data as [|n|s|l|items]; cbn [truthy].
  - fallback.
  - destruct (negb (n =? 0)); fallback.
  - destruct (negb (String.eqb s "")); cbn [lift contains];
      [destruct (substring_of "field1" s)|]; fallback.
  - destruct l as [|x l]; cbn [lift contains];
      [|destruct (existsb _ (x :: l))]; fallback.
  - destruct items as [|kv items]; [fallback|].
    cbn [lift contains]. rewrite Hu.
    rewrite bool_decide_eq_false_2 by (intros [? ?]; discriminate).
    fallback.
Qed.

Lemma outcome_cases o :
  remote_unavailable o
  \/ exists items, o = GetResp 200 (Some (PObj items))
                   /\ is_Some (obj_get "field1" items).
Proof.
  destruct o as [|c body]; [by left|].
  destruct (decide (c = 200)) as [->|Hc]; [|left; by left].
  destruct body as [[|n|s|l|items]|]; try (left; right; exact I).
  destruct (obj_get "field1" items) as [x|] eqn:Hx.
  - right. exists items. rewrite Hx. eauto.
  - left. right. exact Hx.
Qed.

Lemma remote_counts_unavailable o : remote_unavailable o -> remote_counts o = None.
Proof.
  destruct o as [|c body]; [reflexivity|]. cbn.
  destruct body as [[|n|s|l|items]|]; try reflexivity.
  intros [Hc|Hf].
  - apply Z.eqb_neq in Hc. by rewrite Hc.
  - rewrite Hf, bool_decide_eq_false_2 by (intros [? ?]; discriminate).
    by rewrite andb_false_r.
Qed.

Lemma assign_all_ok items fields : forall v,
  (assign_all items fields v).2 = true <->
  forall cf, cf ∈ fields -> exists n, remote_field cf.2 items = Ok n.
Proof.
  induction fields as [|[cid f] fields IH]; intros v; cbn [assign_all].
  - split; [|reflexivity]. intros _ cf Hcf. by apply elem_of_nil in Hcf.
  - destruct (remote_field f items) as [n|e] eqn:E.
    + rewrite IH. split.
      * intros H cf Hcf. apply elem_of_cons in Hcf as [->|Hcf]; [eauto|auto].
      * intros H cf Hcf. apply H. by right.
    + split; [discriminate|]. intros H.
      destruct (H (cid, f)) as [n Hn]; [by left|].
      cbn in Hn. congruence.
Qed.

(** C8.  [fetch_votes_from_thingspeak] returns on every outcome of the
    request and from every state; it returns [True] exactly when the
    response has status 200 and is a JSON object that has [field1] and
    four fields that read as integers.  In particular it returns [False]
    on a transport error, on another status, on a body that is not JSON,
    on a response without [field1], and when a field does not read as an
    integer. *)
Theorem fetch_never_raises o st :
  exists b st',
    fetch_votes_from_thingspeak rkey chan o st = (Ok b, st')
    /\ (b = true <-> is_Some (remote_counts o))
    /\ (remote_unavailable o -> b = false)
    /\ (forall status_code items cf e,
          o = GetResp status_code (Some (PObj items)) ->
          cf ∈ FIELDS -> remote_field cf.2 items = Raise e -> b = false).
Proof.
  destruct (outcome_cases o) as [Hu|(items & -> & Hf1)].
  - exists false. eexists. split; [by apply fetch_unavailable_run|].
    rewrite (remote_counts_unavailable _ Hu).
    split; [|split; [reflexivity|reflexivity]].
    split; [discriminate|]. intros [? ?]. discriminate.
  - rewrite (fetch_obj_run _ _ _ eq_refl Hf1).
    assert (Hrc : remote_counts (GetResp 200 (Some (PObj items)))
                  = match assign_all items FIELDS ∅ with
                    | (v, true) => Some v
                    | (_, false) => None
                    end).
    { cbn [remote_counts Z.eqb Pos.eqb andb].
      by rewrite bool_decide_eq_true_2 by exact Hf1. }
    rewrite Hrc.
    pose proof (assign_all_flag items FIELDS (votes st) ∅) as Hflag.
    pose proof (assign_all_ok items FIELDS (votes st)) as Hok.
    destruct (assign_all items FIELDS (votes st)) as [v ok].
    destruct (assign_all items FIELDS ∅) as [v0 ok0].
    cbn [snd] in Hflag, Hok. subst ok0. destruct ok.
    + eexists _, _. split; [reflexivity|]. split; [split; eauto|].
      split.
      * intros [Hc|Hn]; [contradiction|]. rewrite Hn in Hf1.
        destruct Hf1. discriminate.
      * intros c items' cf e [= _ <-] Hcf Hr.
        destruct (proj1 Hok eq_refl cf Hcf) as [n Hn]. congruence.
    + eexists _, _. split; [reflexivity|].
      split; [|split; reflexivity].
      split; [discriminate|]. intros [? ?]. discriminate.
Qed.

(** The tally after a fetch whose first field reads as an integer and
    whose second does not: the first assignment has been made when the
    second raises, and the fallback then replaces the tally by the local
    file's when there is one to load. *)
Lemma fetch_partial_run status_code items n1 e st :
  status_code = 200 ->
  is_Some (obj_get "field1" items) ->
  remote_field "field1" items = Ok n1 ->
  remote_field "field2" items = Raise e ->
  fetch_votes_from_thingspeak rkey chan
    (GetResp status_code (Some (PObj items))) st
  = (Ok false,
     loaded (with_votes (<[1 := PInt n1]> (votes st))
               (with_event (EGet (fetch_url rkey chan)) st))).
Proof.
  intros Hc Hf1 H1 H2. rewrite (fetch_obj_run _ _ _ Hc Hf1).
  unfold FIELDS. cbn [assign_all]. rewrite H1, H2. reflexivity.
Qed.

(** C10.  The fetch is not atomic.  For a response with status 200 whose
    [field1] is present and reads as the integer [n1] and whose [field2]
    does not read as an integer, [fetch_votes_from_thingspeak] returns
    [False] without raising, and, when there is no local tally to fall
    back on, it leaves candidate 1 with the count [n1] of the response and
    every other entry of the tally as it was before the call.  (When the
    local file loads, the fallback replaces the whole tally by the file's,
    candidate 1 included.) *)
Theorem fetch_partial_overwrite status_code items n1 e st :
  status_code = 200 ->
  is_Some (obj_get "field1" items) ->
  remote_field "field1" items = Ok n1 ->
  remote_field "field2" items = Raise e ->
  exists st',
    fetch_votes_from_thingspeak rkey chan
      (GetResp status_code (Some (PObj items))) st = (Ok false, st')
    /\ votes st'
       = default (<[1 := PInt n1]> (votes st)) (local_tally (votes_file st))
    /\ (local_tally (votes_file st) = None ->
        votes st' !! 1 = Some (PInt n1)
        /\ forall k, k <> 1 -> votes st' !! k = votes st !! k).
Proof.
  intros Hc Hf1 H1 H2. eexists.
  split; [by eapply fetch_partial_run|]. split; [reflexivity|].
  intros Hnone. cbn [votes loaded with_votes with_event votes_file].
  rewrite Hnone. cbn [default]. split; [apply lookup_insert_eq|].
  intros k Hk. apply lookup_insert_ne. congruence.
Qed.

End Fetch.

(** ** Reconciliation at startup *)

Lemma assign_all_initial items v :
  assign_all items FIELDS ∅ = (v, true) ->
  assign_all items FIELDS initial_votes = (v, true).
Proof.
  unfold FIELDS. cbn [assign_all].
  destruct (remote_field "field1" items) as [n1|]; [|discriminate].
  destruct (remote_field "field2" items) as [n2|]; [|discriminate].
  destruct (remote_field "field3" items) as [n3|]; [|discriminate].
  destruct (remote_field "field4" items) as [n4|]; [|discriminate].
  intros [= <-]. reflexivity.
Qed.

Section Reconciliation.

Context (key rkey chan : string).

(** C1, as amended.  [main] does not consult the remote state when it
    starts: it loads the local file only.  When startup succeeds, the
    tally is the local file's contents if the file holds a tally, and
    every count is zero otherwise; and startup does succeed when a port
    was chosen, the serial port opens and that tally is well formed with
    no negative count.  The file is read at most once, before anything
    else happens, and neither the loop nor the shutdown reads the file or
    requests the remote state, however they end.

    [fetch_votes_from_thingspeak], which [main] never calls, gives from
    the initial state: the remote state when the response is well formed;
    the local file's contents, or zeros, when the remote state is
    unavailable; and in the one remaining case, a response with [field1]
    in which some field does not read as an integer, the local file's
    contents if the file holds a tally and otherwise the zeros
    overwritten by the fields that precede the first unreadable one.

    The contents of a file that [save_votes] wrote are the tally it
    saved. *)
Theorem startup_reconciliation com_port bars now serial_opens vf lf :
  (is_Some com_port -> serial_opens = true ->
   tally_ok (spec_reconcile None (local_tally vf)) ->
   counts_nonneg (spec_reconcile None (local_tally vf)) ->
   exists st0,
     startup com_port bars now serial_opens (initial_state vf lf) = (Ok tt, st0))
  /\ (forall st0,
        startup com_port bars now serial_opens (initial_state vf lf)
        = (Ok tt, st0) ->
        votes st0 = spec_reconcile None (local_tally vf)
        /\ trace st0 = (if file_exists vf then [EReadVotes] else [])
        /\ forall ts final_bars o final_now, exists r stf,
             main key com_port bars now serial_opens ts final_bars o final_now
               (initial_state vf lf) = (r, stf)
             /\ trace_grows not_a_read st0 stf
             /\ (counts_nonneg (votes st0) -> r = Ok tt))
  /\ (forall o r, remote_counts o = Some r ->
        exists st',
          fetch_votes_from_thingspeak rkey chan o (initial_state vf lf)
          = (Ok true, st')
          /\ votes st' = spec_reconcile (Some r) (local_tally vf))
  /\ (forall o, remote_unavailable o ->
        exists st',
          fetch_votes_from_thingspeak rkey chan o (initial_state vf lf)
          = (Ok false, st')
          /\ votes st' = spec_reconcile None (local_tally vf))
  /\ (forall items,
        is_Some (obj_get "field1" items) ->
        remote_counts (GetResp 200 (Some (PObj items))) = None ->
        exists st',
          fetch_votes_from_thingspeak rkey chan
            (GetResp 200 (Some (PObj items))) (initial_state vf lf)
          = (Ok false, st')
          /\ votes st'
             = default (assign_all items FIELDS initial_votes).1 (local_tally vf))
  /\ (forall o,
        is_Some (remote_counts o) \/ remote_unavailable o
        \/ exists items, o = GetResp 200 (Some (PObj items))
                         /\ is_Some (obj_get "field1" items)
                         /\ remote_counts o = None)
  /\ (forall st, vf = votes_file (saved st) ->
        spec_reconcile None (local_tally vf) = votes st).
Proof.
  assert (Hv : votes (loaded (initial_state vf lf))
               = spec_reconcile None (local_tally vf)).
  { cbn. by destruct (local_tally vf). }
  split; [|split; [|split; [|split; [|split; [|split]]]]]; cycle 6.
  { intros st ->. cbn [saved votes_file]. by rewrite local_tally_json_dump. }
  - intros Hport Hser Hok Hn. eexists. apply startup_ok; rewrite ?Hv; auto.
  - intros st0 Hstart. pose proof Hstart as Hs.
    apply startup_ok_inv in Hs as (_ & _ & Hok0 & Hst0).
    split; [by rewrite Hst0|]. split.
    { rewrite Hst0, started_trace. cbn. by rewrite app_nil_r. }
    intros ts final_bars o final_now.
    destruct (main_run key com_port bars now serial_opens ts final_bars o
                final_now (initial_state vf lf) st0 Hstart)
      as (r1 & st1 & r & stf & _ & Hmain & Htr & _ & Hret); [cbn; lia|].
    exists r, stf. split; [exact Hmain|]. split; [exact Htr|].
    intros Hn. by destruct (Hret Hn) as (_ & -> & _).
  - intros o r Hr.
    destruct (outcome_cases o) as [Hu|(items & -> & Hf1)].
    { rewrite (remote_counts_unavailable _ Hu) in Hr. discriminate. }
    rewrite (fetch_obj_run _ _ _ _ _ eq_refl Hf1).
    cbn [remote_counts Z.eqb Pos.eqb andb] in Hr.
    rewrite bool_decide_eq_true_2 in Hr by exact Hf1.
    destruct (assign_all items FIELDS ∅) as [v [|]] eqn:Ha; [|discriminate].
    injection Hr as ->. cbn [votes initial_state].
    rewrite (assign_all_initial _ _ Ha). eexists. split; reflexivity.
  - intros o Hu. rewrite (fetch_unavailable_run _ _ _ _ Hu).
    eexists. split; [reflexivity|]. cbn. by destruct (local_tally vf).
  - intros items Hf1 Hr.
    rewrite (fetch_obj_run _ _ _ _ _ eq_refl Hf1).
    cbn [remote_counts Z.eqb Pos.eqb andb] in Hr.
    rewrite bool_decide_eq_true_2 in Hr by exact Hf1.
    pose proof (assign_all_flag items FIELDS (votes (initial_state vf lf)) ∅)
      as Hflag.
    cbn [votes initial_state] in *.
    destruct (assign_all items FIELDS ∅) as [v0 [|]]; [discriminate|].
    destruct (assign_all items FIELDS initial_votes) as [v ok].
    cbn [snd] in Hflag. subst ok. eexists. split; reflexivity.
  - intros o. destruct (outcome_cases o) as [Hu|(items & -> & Hf1)];
      [by auto|].
    destruct (remote_counts (GetResp 200 (Some (PObj items)))) eqn:Hr;
      [left; eauto|right; right; eauto].
Qed.

End Reconciliation.

(** C1, the counterexample.  With a well-formed remote state available and
    the local file of the specification's example, startup succeeds with
    the local file's tally, which is not the remote state, and without any
    request for the remote state. *)
Lemma startup_ignores_remote :
  is_Some (remote_counts example_remote)
  /\ exists st0,
       startup (Some "COM3") example_bars 0 true
         (initial_state example_file None)
       = (Ok tt, st0)
       /\ votes st0
          <> spec_reconcile (remote_counts example_remote)
               (local_tally example_file)
       /\ votes st0 = spec_reconcile None (local_tally example_file)
       /\ count_events is_fetch (trace st0) = 0%nat.
Proof.
  split; [eexists; reflexivity|].
  eexists. split; [vm_compute; reflexivity|].
  split; [|split; reflexivity].
  intros H. apply (f_equal (fun m => m !! 1)) in H. vm_compute in H.
  discriminate.
Qed.

(** ** The properties at sample inputs

    Each lemma below applies one of the theorems above to the sample
    inputs, with its hypotheses established by computation. *)

(** The scenario of the specification, end to end: the remote state is
    not consulted and there is no local file, so the tally starts at zero;
    after the three lines the tally is [{1: 2}] with 2 votes pending and 2
    rows in the audit log; when the interval has elapsed the push is made
    and succeeds, the pending count is 0 and the upload time is the time
    of the push. *)
Example end_to_end_scenario :
  scenario_after_lines.1 = Ok tt
  /\ votes scenario_after_lines.2 = <[1 := PInt 2]> initial_votes
  /\ votes_since_last_upload scenario_after_lines.2 = 2
  /\ log_file scenario_after_lines.2
     = Some [log_header;
             ["2024-12-24T10:00:00"; "1"; "Japan"];
             ["2024-12-24T10:00:00"; "1"; "Japan"]]
  /\ scenario_after_push.1 = Ok tt
  /\ votes scenario_after_push.2 = <[1 := PInt 2]> initial_votes
  /\ votes_since_last_upload scenario_after_push.2 = 0
  /\ last_upload_time scenario_after_push.2 = 117%Q
  /\ count_events is_post (trace scenario_after_push.2) = 1%nat.
Proof.
  repeat apply conj; vm_compute; reflexivity.
Qed.

Lemma startup_reconciliation_witness :
  exists st0,
    startup (Some "COM3") example_bars 0 true (initial_state example_file None)
    = (Ok tt, st0)
    /\ votes st0
       = <[1 := PInt 3]> (<[2 := PInt 5]> (<[3 := PInt 0]> (<[4 := PInt 1]> ∅)))
    /\ trace st0 = [EReadVotes].
Proof.
  destruct (startup_reconciliation "K" "R" "C" (Some "COM3") example_bars 0 true
              example_file None) as (Hex & Hst & _).
  destruct Hex as [st0 Hst0].
  - eexists; reflexivity.
  - reflexivity.
  - apply (four_counts_ok 3 5 0 1).
  - apply (four_counts_nonneg 3 5 0 1); lia.
  - exists st0. destruct (Hst st0 Hst0) as (Hv & Htr & _).
    split; [exact Hst0|]. split; [exact Hv|exact Htr].
Defined.

Lemma upload_scheduler_spec_witness :
  should_upload 116 example_pending = (Ok true, example_pending)
  /\ should_upload 110 example_pending = (Ok false, example_pending)
  /\ (exists st',
        upload_to_thingspeak "K" (PostResp 200 "12") 117 example_pending
        = (Ok true, st')
        /\ votes_since_last_upload st' = 0 /\ last_upload_time st' = 117%Q)
  /\ (exists st',
        upload_to_thingspeak "K" (PostResp 200 "0") 117 example_pending
        = (Ok false, st')
        /\ votes_since_last_upload st' = 1 /\ last_upload_time st' = 100%Q).
Proof.
  split; [reflexivity|]. split; [reflexivity|].
  destruct (upload_scheduler_spec "K" 117 example_pending) as (_ & Hs & Hf & _).
  assert (Hc : has_candidates (votes example_pending)).
  { apply has_candidates_iff. repeat split; eexists; reflexivity. }
  split.
  - apply (Hs (PostResp 200 "12") Hc). reflexivity.
  - apply (Hf (PostResp 200 "0") Hc). right. reflexivity.
Defined.

Lemma repeated_votes_counted_witness :
  exists st',
    process_votes example_calls (initial_state Missing None)
    = (Ok [true; true; true], st')
    /\ votes st' !! 1 = Some (PInt 3)
    /\ votes_since_last_upload st' = 3.
Proof.
  apply (proj2 (repeated_votes_counted 1 example_calls Missing None
                  ltac:(apply elem_of_dom; eexists; reflexivity)
                  ltac:(repeat constructor))).
Defined.

Lemma event_parser_spec_witness :
  process_vote example_env "VOTE,2" (initial_state Missing None)
  = (Ok true, after_vote example_env 2 0 (initial_state Missing None))
  /\ process_vote example_env "VOTE,abc" (initial_state Missing None)
     = (Ok false, initial_state Missing None)
  /\ parse_vote ("  " +:+ example_crlf_line +:+ " ") = parse_vote example_crlf_line
  /\ exists b st',
       process_vote example_env "VOTE, 3" (initial_state Missing None)
       = (Ok b, st').
Proof.
  destruct event_parser_spec
    as (_ & Hvote & Hnot & Hpad & _ & _ & _ & _ & _ & _ & _ & Hret).
  split; [|split; [|split]].
  - apply Hvote. reflexivity.
  - apply Hnot. do 2 right. left.
  - apply Hpad; reflexivity.
  - apply Hret. apply (proj1 (four_counts_ok 0 0 0 0)).
Defined.

Lemma unknown_candidate_rejected_witness :
  process_vote example_env "VOTE,7" (initial_state Missing None)
  = (Ok false, initial_state Missing None).
Proof.
  apply (proj1 (unknown_candidate_rejected example_env "VOTE,7" 7
                  (initial_state Missing None) eq_refl)).
  apply not_elem_of_dom. reflexivity.
Defined.

(** C5, the counterexample.  The id 9 is not a candidate's.  Once [main]
    has loaded a local file that has an entry for 9, the line ["VOTE,9"]
    is counted: [process_vote] returns [True], the count of 9 and the
    pending count are 1, a row is appended to the audit log and the tally
    is written to the votes file. *)
Lemma vote_for_loaded_key_counted :
  CANDIDATES !! 9 = None
  /\ (startup (Some "COM3") example_bars 100 true
        (initial_state example_extra_file None)).1 = Ok tt
  /\ parse_vote "VOTE,9" = Some 9
  /\ (process_vote example_env "VOTE,9" example_extra_state).1 = Ok true
  /\ votes example_extra_state !! 9 = Some (PInt 0)
  /\ votes (process_vote example_env "VOTE,9" example_extra_state).2 !! 9
     = Some (PInt 1)
  /\ votes_since_last_upload example_extra_state = 0
  /\ votes_since_last_upload
       (process_vote example_env "VOTE,9" example_extra_state).2 = 1
  /\ log_file (process_vote example_env "VOTE,9" example_extra_state).2
     = Some [log_header; ["2024-12-24T10:00:00"; "9"; "Unknown-9"]]
  /\ count_events (fun e => match e with EWriteVotes _ => true | _ => false end)
       (trace (process_vote example_env "VOTE,9" example_extra_state).2)
     = 1%nat.
Proof.
  repeat apply conj; vm_compute; reflexivity.
Qed.

Lemma run_invariants_witness :
  exists st,
    loop "K" example_ticks (started 100 (initial_state Missing None))
    = (Ok tt, st)
    /\ counts_le (votes (started 100 (initial_state Missing None))) (votes st)
    /\ 0 <= votes_since_last_upload st.
Proof.
  destruct (run_invariants "K" (Some "COM3") example_bars 100 true Missing None
              (started 100 (initial_state Missing None)) example_ticks)
    as (r & st & Hrun & Hret & Hle & Hp & _).
  - reflexivity.
  - exists st. rewrite (Hret initial_votes_nonneg) in Hrun.
    split; [exact Hrun|]. split; [exact Hle|exact Hp].
Defined.


Lemma fetch_never_raises_witness :
  exists b st',
    fetch_votes_from_thingspeak "R" "C" (GetResp 503 None)
      (initial_state Missing None) = (Ok b, st')
    /\ b = false.
Proof.
  destruct (fetch_never_raises "R" "C" (GetResp 503 None)
              (initial_state Missing None)) as (b & st' & Hrun & _ & Hu & _).
  exists b, st'. split; [exact Hrun|]. apply Hu. left. discriminate.
Defined.

Lemma fetch_partial_overwrite_witness :
  exists st',
    fetch_votes_from_thingspeak "R" "C" (GetResp 200 (Some (PObj example_partial)))
      (initial_state Missing None) = (Ok false, st')
    /\ votes st' !! 1 = Some (PInt 7)
    /\ votes st' !! 3 = Some (PInt 0).
Proof.
  destruct (fetch_partial_overwrite "R" "C" 200 example_partial 7 ValueError
              (initial_state Missing None))
    as (st' & Hrun & _ & Hv).
  - reflexivity.
  - eexists. reflexivity.
  - reflexivity.
  - reflexivity.
  - exists st'. split; [exact Hrun|].
    destruct (Hv eq_refl) as [H1 Hk]. split; [exact H1|].
    rewrite Hk by discriminate. reflexivity.
Defined.

(** * Further properties of the code *)

(** ** [strip] and [split] *)

Lemma rstrip_idem s : PyStr.rstrip (PyStr.rstrip s) = PyStr.rstrip s.
Proof.
  induction s as [|c s IH]; [reflexivity|]. cbn [PyStr.rstrip].
  destruct (PyStr.is_space c && String.eqb (PyStr.rstrip s) "") eqn:E;
    [reflexivity|].
  cbn [PyStr.rstrip]. by rewrite IH, E.
Qed.

Lemma lstrip_rstrip s :
  PyStr.lstrip (PyStr.rstrip (PyStr.lstrip s)) = PyStr.rstrip (PyStr.lstrip s).
Proof.
  induction s as [|c s IH]; [reflexivity|]. cbn [PyStr.lstrip].
  destruct (PyStr.is_space c) eqn:Hc; [exact IH|].
  cbn [PyStr.rstrip]. rewrite Hc. cbn [andb PyStr.lstrip]. by rewrite Hc.
Qed.

Lemma strip_idem s : PyStr.strip (PyStr.strip s) = PyStr.strip s.
Proof. unfold PyStr.strip. by rewrite lstrip_rstrip, rstrip_idem. Qed.

Lemma split_comma_nonempty s : PyStr.split_comma s <> [].
Proof.
  destruct s as [|c s]; [discriminate|]. cbn [PyStr.split_comma].
  destruct (Ascii.eqb c ","); [discriminate|].
  destruct (PyStr.split_comma s); discriminate.
Qed.

Lemma join_split_comma s : join_comma (PyStr.split_comma s) = s.
Proof.
  induction s as [|c s IH]; [reflexivity|]. cbn [PyStr.split_comma].
  pose proof (split_comma_nonempty s) as Hne.
  destruct (Ascii.eqb c ",") eqn:Hc.
  - apply Ascii.eqb_eq in Hc as ->.
    destruct (PyStr.split_comma s) as [|p ps]; [contradiction|].
    change (join_comma ("" :: p :: ps))
      with ("" +:+ "," +:+ join_comma (p :: ps)).
    by rewrite IH.
  - destruct (PyStr.split_comma s) as [|p ps]; [contradiction|].
    destruct ps as [|q ps]; cbn [join_comma] in *; by rewrite <- IH.
Qed.

Lemma parse_vote_strip line : parse_vote (PyStr.strip line) = parse_vote line.
Proof. unfold parse_vote. by rewrite strip_idem. Qed.

Lemma parse_vote_prefix line cid :
  parse_vote line = Some cid ->
  PyStr.startswith (PyStr.strip line) "VOTE," = true
  /\ PyStr.strip line <> "" /\ PyStr.strip line <> "READY".
Proof.
  intros H. apply parse_vote_iff in H as (tok & Hs & _).
  pose proof (join_split_comma (PyStr.strip line)) as Hj.
  rewrite Hs in Hj. cbn [join_comma] in Hj. rewrite <- Hj.
  split; [by destruct tok|]. split; [discriminate|].
  destruct tok; discriminate.
Qed.

Lemma rstrip_no_comma s : no_comma s -> no_comma (PyStr.rstrip s).
Proof.
  unfold no_comma. induction s as [|c s IH]; [reflexivity|].
  cbn [all_chars PyStr.rstrip]. intros H. apply andb_true_iff in H as [Hc Hs].
  destruct (PyStr.is_space c && _); [reflexivity|].
  cbn [all_chars]. by rewrite Hc, (IH Hs).
Qed.

Lemma split_single s : forall x, PyStr.split_comma s = [x] -> no_comma s.
Proof.
  unfold no_comma. induction s as [|c s IH]; intros x; [reflexivity|].
  cbn [PyStr.split_comma all_chars].
  destruct (Ascii.eqb c ",").
  - intros [= _ H]. by destruct (split_comma_nonempty s).
  - destruct (PyStr.split_comma s) as [|p ps] eqn:E;
      [by destruct (split_comma_nonempty s)|].
    intros [= _ ->]. cbn [negb andb]. by apply (IH p).
Qed.

(** X1.  White space around a line is ignored, and nothing else about
    the line is: [process_vote] does the same on a padded line as on the
    line, and a line ["VOTE,<x>"] whose [x] has no comma is a vote for [n]
    exactly when [int] of [x] without its trailing white space is [n], so
    that ["VOTE, 2"], ["VOTE,+2"] and ["VOTE,0_2"] are votes for 2.  The
    trailing white space is removed by [str.strip], which knows more
    white space than [int]: the line that ends in ["2"] and the separator
    28 is a vote for 2, although [int] raises on that token.  Conversely,
    every line that is a vote has this form once it is stripped. *)
Theorem vote_lines_modulo_space :
  (forall env w1 line w2 st, all_space w1 -> all_space w2 ->
     process_vote env (w1 +:+ line +:+ w2) st = process_vote env line st)
  /\ (forall x, no_comma x ->
        parse_vote ("VOTE," +:+ x) = PyStr.py_int (PyStr.rstrip x))
  /\ (parse_vote ("VOTE," +:+ example_separator_token) = Some 2
      /\ PyStr.py_int example_separator_token = None)
  /\ (forall line cid, parse_vote line = Some cid ->
        exists x, PyStr.strip line = "VOTE," +:+ x
                  /\ no_comma x /\ PyStr.py_int x = Some cid).
Proof.
  split; [|split; [|split]].
  - intros env w1 line w2 st H1 H2. rewrite !process_vote_factor.
    unfold parse_vote. by rewrite strip_pad.
  - intros x Hx. unfold parse_vote.
    assert (Hs : PyStr.strip ("VOTE," +:+ x) = "VOTE," +:+ PyStr.rstrip x).
    { unfold PyStr.strip.
      change ("VOTE," +:+ x)
        with (String "V" (String "O" (String "T" (String "E" (String "," x))))).
      reflexivity. }
    rewrite Hs.
    change ("VOTE," +:+ PyStr.rstrip x)
      with (String "V" (String "O" (String "T" (String "E"
              (String "," (PyStr.rstrip x)))))).
    cbn [PyStr.split_comma].
    by rewrite (split_no_comma _ (rstrip_no_comma _ Hx)).
  - split; reflexivity.
  - intros line cid H. apply parse_vote_iff in H as (tok & Hs & Hi).
    exists tok. pose proof (join_split_comma (PyStr.strip line)) as Hj.
    rewrite Hs in Hj. split; [by rewrite <- Hj|]. split; [|exact Hi].
    assert (Hsplit : PyStr.split_comma ("VOTE," +:+ tok) = ["VOTE"; tok])
      by (rewrite <- Hs; f_equal; by rewrite <- Hj).
    change ("VOTE," +:+ tok)
      with (String "V" (String "O" (String "T" (String "E" (String "," tok)))))
      in Hsplit.
    cbn [PyStr.split_comma] in Hsplit. cbn in Hsplit.
    destruct (PyStr.split_comma tok) as [|p ps] eqn:E;
      [by destruct (split_comma_nonempty tok)|].
    injection Hsplit as -> ->. by apply (split_single _ _ E).
Qed.

(** ** The loop *)

Lemma handle_line_unguarded t st :
  handle_line t st =
  match t_line t with
  | Some raw => (_ ← process_vote (t_vote t) raw; mret tt) st
  | None => (Ok tt, st)
  end.
Proof.
  unfold handle_line. destruct (t_line t) as [raw|]; [|reflexivity].
  cbv zeta. rewrite bind_run, process_vote_factor.
  destruct (parse_vote raw) as [cid|] eqn:Hp.
  - destruct (parse_vote_prefix _ _ Hp) as (Hpre & Hne & Hready).
    apply String.eqb_neq in Hne, Hready. rewrite Hne, Hready, Hpre.
    cbn [negb]. by rewrite bind_run, process_vote_factor, parse_vote_strip, Hp.
  - destruct (negb _); [|reflexivity].
    destruct (String.eqb _ "READY"); [reflexivity|].
    destruct (PyStr.startswith _ _); [|reflexivity].
    by rewrite bind_run, process_vote_factor, parse_vote_strip, Hp.
Qed.

(** X2.  The tests that [main] makes on a line before it calls
    [process_vote] (not empty, not ["READY"], starting with ["VOTE,"]),
    and the [strip] it applies first, change nothing: an iteration of the
    loop does exactly what it would do if every line read from the device
    went to [process_vote] as it is. *)
Theorem loop_guards_redundant key t st :
  loop_body key t st = loop_body_unguarded key t st.
Proof.
  rewrite loop_body_eq. unfold loop_body_unguarded.
  rewrite !bind_run, handle_line_unguarded.
  destruct (t_line t); reflexivity.
Qed.

(** ** Counting *)

Lemma process_vote_accepts env line st :
  ints_only (votes st) ->
  (accepts (dom (votes st)) line = false
   /\ process_vote env line st = (Ok false, st))
  \/ (exists cid n, parse_vote line = Some cid
        /\ votes st !! cid = Some (PInt n)
        /\ accepts (dom (votes st)) line = true
        /\ process_vote env line st = (Ok true, after_vote env cid n st)).
Proof.
  intros Hi. rewrite process_vote_factor. unfold accepts.
  destruct (parse_vote line) as [cid|]; [|by left].
  destruct (votes st !! cid) as [x|] eqn:Hx.
  - destruct (Hi _ _ Hx) as [n ->]. right. exists cid, n.
    rewrite bool_decide_eq_true_2 by (apply elem_of_dom; eauto).
    by rewrite (record_vote_int _ _ _ _ Hx).
  - left. rewrite bool_decide_eq_false_2 by (by apply not_elem_of_dom).
    by rewrite (record_vote_unknown _ _ _ Hx).
Qed.

Lemma after_vote_dom env cid n st :
  is_Some (votes st !! cid) ->
  dom (votes (after_vote env cid n st)) = dom (votes st).
Proof.
  intros Hc. rewrite after_vote_votes, dom_insert_L.
  apply elem_of_dom in Hc. apply set_eq. intros k.
  rewrite elem_of_union, elem_of_singleton. split; [intros [->|]; auto|auto].
Qed.

(** X3.  Whatever lines come in, each line is counted once or not at all.
    From a tally of integers, [process_vote] called on each line in turn
    never raises; it answers [True] exactly on the lines that are a vote
    for a key of the tally; the pending count grows by the number of
    those lines, every count by the number of votes for its candidate,
    and the keys of the tally stay the same. *)
Theorem votes_counted_once (calls : list (vote_env * string)) : forall st,
  ints_only (votes st) ->
  exists st',
    process_votes calls st
    = (Ok ((fun c => accepts (dom (votes st)) c.2) <$> calls), st')
    /\ votes_since_last_upload st'
       = votes_since_last_upload st
         + Z.of_nat (length (filter (fun c => accepts (dom (votes st)) c.2 = true)
                                    calls))
    /\ dom (votes st') = dom (votes st)
    /\ forall cid n, votes st !! cid = Some (PInt n) ->
         votes st' !! cid = Some (PInt (n + Z.of_nat (votes_for cid calls))).
Proof.
  induction calls as [|[env line] calls IH]; intros st Hi.
  - exists st. cbn. split; [reflexivity|]. split; [lia|]. split; [reflexivity|].
    intros cid n ->. by rewrite Z.add_0_r.
  - cbn [process_votes fmap list_fmap snd]. rewrite bind_run.
    destruct (process_vote_accepts env line st Hi)
      as [[Hacc ->]|(cid & n & Hp & Hn & Hacc & ->)].
    + destruct (IH st Hi) as (st' & Hrun & Hpend & Hdom & Hcount).
      exists st'. rewrite bind_run, Hrun, ret_run. cbn [snd]. rewrite Hacc.
      split; [reflexivity|]. split; [|split; [exact Hdom|]].
      * rewrite filter_cons_False by (cbn; by rewrite Hacc). exact Hpend.
      * intros k m Hk. rewrite (Hcount k m Hk). unfold votes_for.
        rewrite filter_cons_False; [reflexivity|]. cbn. intros Hpk.
        unfold accepts in Hacc. rewrite Hpk in Hacc.
        apply bool_decide_eq_false_1 in Hacc. apply Hacc, elem_of_dom. eauto.
    + assert (Hd : dom (votes (after_vote env cid n st)) = dom (votes st))
        by (apply after_vote_dom; eauto).
      destruct (IH (after_vote env cid n st)) as (st' & Hrun & Hpend & Hdom & Hcount).
      { rewrite after_vote_votes. by apply ints_only_incr. }
      rewrite Hd in Hrun, Hpend. exists st'.
      rewrite bind_run, Hrun, ret_run. cbn [snd]. rewrite Hacc.
      split; [reflexivity|]. split; [|split; [by rewrite Hdom|]].
      * rewrite filter_cons_True by (cbn; by rewrite Hacc).
        rewrite Hpend, after_vote_pending. cbn [length]. lia.
      * intros k m Hk. unfold votes_for.
        destruct (decide (k = cid)) as [->|Hne].
        -- rewrite Hn in Hk. injection Hk as <-.
           rewrite filter_cons_True by exact Hp.
           rewrite (Hcount cid (n + 1)).
           ++ f_equal. f_equal. unfold votes_for. cbn [length]. lia.
           ++ rewrite after_vote_votes. apply lookup_insert_eq.
        -- rewrite filter_cons_False by (cbn; rewrite Hp; congruence).
           apply Hcount. rewrite after_vote_votes.
           by rewrite lookup_insert_ne by congruence.
Qed.

(** ** The audit log and the votes file *)




Lemma after_vote_file env cid n st :
  votes_file (after_vote env cid n st)
  = if ve_save_opens env
    then Json (json_dump (votes (after_vote env cid n st)))
    else votes_file st.
Proof.
  unfold after_vote. destruct env as [ts [|] [|]]; reflexivity.
Qed.


(** ** Restart *)

(** X6.  Votes survive a restart, the pending count does not.  When a
    vote has been counted and saved, from a well-formed tally with no
    negative count, a new process started on the files that the old one
    left starts with the same tally; its pending count is 0, so that no
    upload is due, at any time, until another vote is counted, even if
    the old process had never uploaded the tally. *)
Theorem restart_restores_tally env line st st' port bars now :
  tally_ok (votes st) -> counts_nonneg (votes st) ->
  process_vote env line st = (Ok true, st') ->
  ve_save_opens env = true ->
  exists st0,
    startup (Some port) bars now true
      (initial_state (votes_file st') (log_file st')) = (Ok tt, st0)
    /\ votes st0 = votes st'
    /\ votes_since_last_upload st0 = 0
    /\ forall now', should_upload now' st0 = (Ok false, st0).
Proof.
  intros Hok Hnn Hrun Hs. rewrite process_vote_factor in Hrun.
  destruct (parse_vote line) as [cid|]; [|discriminate].
  destruct (record_vote_cases env cid st) as [H|[(n & Hn & H)|H]];
    rewrite H in Hrun; try discriminate.
  injection Hrun as <-.
  set (st' := after_vote env cid n st).
  assert (Hl : local_tally (votes_file st') = Some (votes st'))
    by (unfold st'; rewrite after_vote_file, Hs; apply local_tally_json_dump).
  assert (Hv : votes (loaded (initial_state (votes_file st') (log_file st')))
               = votes st') by (cbn; by rewrite Hl).
  exists (started now (initial_state (votes_file st') (log_file st'))).
  split; [|split; [exact Hv|split; [reflexivity|]]].
  - apply startup_ok; [eauto|reflexivity|..]; rewrite Hv; unfold st';
      rewrite after_vote_votes.
    + by apply tally_ok_incr.
    + by apply counts_nonneg_incr.
  - intros now'. rewrite should_upload_run. cbn. by rewrite andb_false_r.
Qed.

(** ** Loading *)

Lemma int_keyed_cases items : forall acc,
  (Forall (fun kv => is_Some (PyStr.py_int kv.1)) items
   /\ exists m, int_keyed items acc = Ok m
        /\ forall n, m !! n = match int_get n items with
                              | Some w => Some w
                              | None => acc !! n
                              end)
  \/ (~ Forall (fun kv => is_Some (PyStr.py_int kv.1)) items
      /\ exists e, int_keyed items acc = Raise e).
Proof.
  induction items as [|[k v] items IH]; intros acc.
  - left. split; [constructor|]. exists acc. split; reflexivity.
  - cbn [int_keyed int_get].
    destruct (PyStr.py_int k) as [nk|] eqn:Hk.
    + destruct (IH (<[nk := v]> acc)) as [(Hall & m & Hm & Hlook)|(Hnot & e & He)].
      * left. split; [constructor; [cbn; rewrite Hk; eauto|exact Hall]|].
        exists m. split; [exact Hm|]. intros n. rewrite (Hlook n).
        destruct (int_get n items); [reflexivity|].
        destruct (decide (Some nk = Some n)) as [[= ->]|Hne].
        -- apply lookup_insert_eq.
        -- apply lookup_insert_ne. congruence.
      * right. split; [|eauto]. intros Hall. apply Hnot.
        by apply Forall_cons in Hall as [_ Hall].
    + right. split; [|eauto]. intros Hall.
      apply Forall_cons in Hall as [[x Hx] _]. cbn in Hx. congruence.
Qed.

(** X7.  [load_votes_from_file] is all or nothing.  It never raises and
    touches neither the pending count, the upload time nor the files.
    When the file holds a JSON object whose keys all read as integers,
    the tally is replaced as a whole by the entries of the file (an entry
    that the file does not have is gone; of two keys that read as the
    same integer the later wins); in every other case, a single key that
    is not an integer included, the tally is left exactly as it was. *)
Theorem load_all_or_nothing st :
  exists st',
    load_votes_from_file st = (Ok tt, st')
    /\ votes_since_last_upload st' = votes_since_last_upload st
    /\ last_upload_time st' = last_upload_time st
    /\ votes_file st' = votes_file st
    /\ log_file st' = log_file st
    /\ (forall items, votes_file st = Json (PObj items) ->
          Forall (fun kv => is_Some (PyStr.py_int kv.1)) items ->
          forall n, votes st' !! n = int_get n items)
    /\ ((forall items, votes_file st = Json (PObj items) ->
           ~ Forall (fun kv => is_Some (PyStr.py_int kv.1)) items) ->
        votes st' = votes st).
Proof.
  exists (loaded st). split; [apply load_votes_from_file_run|].
  do 4 (split; [reflexivity|]). cbn [loaded votes]. split.
  - intros items Hf Hall. rewrite Hf. cbn [local_tally].
    destruct (int_keyed_cases items ∅) as [(_ & m & -> & Hlook)|[Hnot _]];
      [|contradiction].
    intros n. cbn. rewrite (Hlook n), lookup_empty.
    by destruct (int_get n items).
  - intros Hbad. destruct (votes_file st) as [| |[| | | |items]]; try reflexivity.
    cbn [local_tally].
    destruct (int_keyed_cases items ∅) as [(Hall & _)|(_ & e & ->)];
      [|reflexivity].
    by destruct (Hbad items eq_refl).
Qed.

(** ** Startup on a damaged file *)




(** ** When the loop uploads, and what *)

Lemma handle_line_detail t st :
  tally_ok (votes st) ->
  exists st1,
    handle_line t st = (Ok tt, st1)
    /\ tally_ok (votes st1)
    /\ (counts_nonneg (votes st) -> counts_nonneg (votes st1))
    /\ last_upload_time st1 = last_upload_time st
    /\ votes_since_last_upload st1
       = votes_since_last_upload st + (if line_counted t st then 1 else 0)
    /\ count_events is_post (trace st1) = count_events is_post (trace st).
Proof.
  intros Hok. rewrite handle_line_unguarded. unfold line_counted.
  destruct (t_line t) as [raw|].
  - rewrite bind_run.
    destruct (process_vote_accepts (t_vote t) raw st (proj1 Hok))
      as [[-> ->]|(cid & n & Hp & Hn & -> & ->)].
    + exists st. rewrite Z.add_0_r. auto 6.
    + eexists. split; [reflexivity|].
      rewrite after_vote_votes, after_vote_time, after_vote_pending,
        count_posts_after_vote.
      split; [by apply tally_ok_incr|].
      split; [by apply counts_nonneg_incr|]. auto.
  - exists st. rewrite Z.add_0_r. auto 6.
Qed.

(** One iteration, from a well-formed tally with no negative count: the
    line is handled, giving [st1], and when an upload is due it is
    attempted once, with the payload built from the tally of [st1]. *)
Lemma loop_body_detail key t st :
  tally_ok (votes st) -> counts_nonneg (votes st) ->
  0 <= votes_since_last_upload st ->
  exists st1 p,
    tally_ok (votes st1)
    /\ last_upload_time st1 = last_upload_time st
    /\ 0 < votes_since_last_upload st1 + (if upload_due t st then 0 else 1)
    /\ count_events is_post (trace st1) = count_events is_post (trace st)
    /\ payload_dict key (votes st1) = Some p
    /\ loop_body key t st
       = (Ok tt, if upload_due t st
                 then posted p (t_post t) (t_uploaded_at t) st1 else st1).
Proof.
  intros Hok Hnn Hp.
  destruct (handle_line_detail t st Hok)
    as (st1 & Hrun & Hok1 & Hnn1 & Htime & Hpend & Hposts).
  destruct (payload_dict_ok key _ (proj2 Hok1)) as [p Hpd].
  exists st1, p. split; [exact Hok1|]. split; [exact Htime|].
  assert (Hdue : Qle_bool UPLOAD_INTERVAL (t_now t - last_upload_time st1)
                 && (0 <? votes_since_last_upload st1) = upload_due t st).
  { unfold upload_due. rewrite Htime, Hpend. f_equal.
    destruct (line_counted t st).
    - rewrite orb_true_r. apply Z.ltb_lt. lia.
    - by rewrite orb_false_r, Z.add_0_r. }
  split.
  { destruct (upload_due t st) eqn:E;
      [|destruct (line_counted t st); lia].
    apply andb_true_iff in Hdue as [_ Hd]. apply Z.ltb_lt in Hd. lia. }
  split; [exact Hposts|]. split; [exact Hpd|].
  rewrite loop_body_eq, bind_run, Hrun, bind_run, should_upload_run, Hdue.
  destruct (upload_due t st); [|reflexivity].
  rewrite bind_run, upload_run, Hpd.
  apply print_status_ok; rewrite posted_votes; auto.
Qed.

Section LoopUploads.

Context (key : string).

(** X9.  The loop uploads when it is due, and only then.  From a
    well-formed tally with no negative count, an iteration returns, and
    it makes exactly one upload attempt when, by the clock of the
    iteration, at least [UPLOAD_INTERVAL] has elapsed since
    [last_upload_time] and a vote is pending, the vote counted in this
    very iteration included; otherwise it makes none. *)
Theorem upload_exactly_when_due t st :
  tally_ok (votes st) -> counts_nonneg (votes st) ->
  0 <= votes_since_last_upload st ->
  exists st',
    loop_body key t st = (Ok tt, st')
    /\ count_events is_post (trace st')
       = (count_events is_post (trace st) + if upload_due t st then 1 else 0)%nat
    /\ (upload_due t st = true <->
        (UPLOAD_INTERVAL <= t_now t - last_upload_time st)%Q
        /\ (0 < votes_since_last_upload st \/ line_counted t st = true)).
Proof.
  intros Hok Hnn Hp.
  destruct (loop_body_detail key t st Hok Hnn Hp)
    as (st1 & p & _ & _ & _ & Hposts & _ & ->).
  eexists. split; [reflexivity|]. split.
  - destruct (upload_due t st); [rewrite count_posts_posted|]; lia.
  - unfold upload_due.
    rewrite andb_true_iff, orb_true_iff, Qle_bool_iff, Z.ltb_lt. tauto.
Qed.

(** X10.  What an upload sends is the tally itself, not a difference.
    When an iteration uploads, from a well-formed tally with no negative
    count, the request it makes carries the four counts that the tally
    has at the end of the iteration, whatever was or was not uploaded
    before; the upload changes neither the tally nor the two files. *)
Theorem upload_sends_totals t st :
  tally_ok (votes st) -> counts_nonneg (votes st) ->
  0 <= votes_since_last_upload st ->
  upload_due t st = true ->
  exists st' p rest,
    loop_body key t st = (Ok tt, st')
    /\ trace st' = EPost p :: rest
    /\ p = [("api_key", PStr key);
            ("field1", default PNone (votes st' !! 1));
            ("field2", default PNone (votes st' !! 2));
            ("field3", default PNone (votes st' !! 3));
            ("field4", default PNone (votes st' !! 4))]
    /\ (forall o now st1 r st2,
          upload_to_thingspeak key o now st1 = (r, st2) ->
          votes st2 = votes st1 /\ votes_file st2 = votes_file st1
          /\ log_file st2 = log_file st1).
Proof.
  intros Hok Hnn Hp Hdue.
  destruct (loop_body_detail key t st Hok Hnn Hp)
    as (st1 & p & _ & _ & _ & _ & Hpd & ->).
  rewrite Hdue. eexists _, p, _. split; [reflexivity|].
  split; [apply posted_trace|]. split.
  - rewrite posted_votes. unfold payload_dict in Hpd.
    destruct (votes st1 !! 1); [|discriminate].
    destruct (votes st1 !! 2); [|discriminate].
    destruct (votes st1 !! 3); [|discriminate].
    destruct (votes st1 !! 4); [|discriminate].
    by injection Hpd as <-.
  - intros o now st1' r st2. rewrite upload_run.
    destruct (payload_dict key (votes st1')); intros [= <- <-];
      [|by auto].
    unfold posted. destruct (push_succeeds o); by auto.
Qed.

(** X11.  A push that fails is tried again at once.  When an iteration,
    from a well-formed tally with no negative count, has made an upload
    attempt and the attempt failed, the upload is still due at every
    later reading of the clock: the next iteration tries again, however
    soon it comes, and the interval only spaces uploads that succeed. *)
Theorem failed_push_stays_due t st :
  tally_ok (votes st) -> counts_nonneg (votes st) ->
  0 <= votes_since_last_upload st ->
  upload_due t st = true ->
  push_succeeds (t_post t) = false ->
  exists st',
    loop_body key t st = (Ok tt, st')
    /\ forall now', (t_now t <= now')%Q ->
         should_upload now' st' = (Ok true, st').
Proof.
  intros Hok Hnn Hp Hdue Hfail.
  destruct (loop_body_detail key t st Hok Hnn Hp)
    as (st1 & p & _ & Htime & Hpend & _ & _ & ->).
  rewrite Hdue in *. eexists. split; [reflexivity|].
  intros now' Hlater. rewrite should_upload_run. unfold posted.
  rewrite Hfail. cbn [last_upload_time votes_since_last_upload].
  apply andb_true_iff in Hdue as [Hint _]. apply Qle_bool_iff in Hint.
  assert (Hq : Qle_bool UPLOAD_INTERVAL (now' - last_upload_time st1) = true).
  { apply Qle_bool_iff. rewrite Htime. lra. }
  assert (Hz : (0 <? votes_since_last_upload st1) = true)
    by (apply Z.ltb_lt; lia).
  by rewrite Hq, Hz.
Qed.

End LoopUploads.

(** ** A fetch that succeeds *)


Section FetchFrame.

Context (rkey chan : string).


End FetchFrame.

(** ** Port discovery *)

Lemma append_assoc (a b c : string) : (a +:+ b) +:+ c = a +:+ (b +:+ c).
Proof.
  induction a as [|x a IH]; [reflexivity|].
  change (String x ((a +:+ b) +:+ c) = String x (a +:+ (b +:+ c))).
  by rewrite IH.
Qed.

Lemma append_cons x (a b : string) : String x a +:+ b = String x (a +:+ b).
Proof. reflexivity. Qed.

Lemma prefix_spec p : forall s,
  String.prefix p s = true <-> exists b, s = p +:+ b.
Proof.
  induction p as [|x p IH]; intros s.
  - split; [intros _; by exists s|]. intros _. by destruct s.
  - destruct s as [|y s]; cbn [String.prefix].
    + split; [discriminate|]. intros [b Hb]. discriminate.
    + destruct (ascii_dec x y) as [->|Hne].
      * rewrite IH. split; intros [b Hb]; exists b.
        -- by rewrite append_cons, <- Hb.
        -- rewrite append_cons in Hb. by injection Hb.
      * split; [discriminate|]. intros [b Hb]. rewrite append_cons in Hb.
        injection Hb as Hxy _. congruence.
Qed.

Lemma substring_spec p : forall s,
  substring_of p s = true <-> exists a b, s = a +:+ p +:+ b.
Proof.
  induction s as [|y s IH].
  - cbn [substring_of]. rewrite orb_false_r, prefix_spec. split.
    + intros [b Hb]. by exists "", b.
    + intros (a & b & Hab). destruct a; [by exists b|discriminate].
  - cbn [substring_of]. rewrite orb_true_iff, prefix_spec, IH. split.
    + intros [[b Hb]|(a & b & Hab)]; [by exists "", b|].
      exists (String y a), b. by rewrite append_cons, Hab.
    + intros (a & b & Hab). destruct a as [|x a]; [left; by exists b|].
      right. exists a, b. rewrite append_cons in Hab. by injection Hab.
Qed.

Lemma py_upper_app a b : py_upper (a +:+ b) = py_upper a +:+ py_upper b.
Proof.
  induction a as [|x a IH]; [reflexivity|].
  change (String x a +:+ b) with (String x (a +:+ b)).
  cbn [py_upper]. by rewrite IH, append_assoc.
Qed.

Lemma scan_signatures_spec p signatures acc :
  scan_signatures signatures p acc
  = if existsb (fun signature =>
                  substring_of (py_upper signature) (py_upper (description p))
                  || substring_of (py_upper signature) (py_upper (device p)))
               signatures
    then (acc ++ [(device p, description p)])%list else acc.
Proof.
  induction signatures as [|sg signatures IH]; [reflexivity|].
  cbn [scan_signatures existsb]. cbv zeta.
  destruct (substring_of _ _ || substring_of _ _); [reflexivity|exact IH].
Qed.

Lemma find_arduino_ports_filter all_ports :
  find_arduino_ports all_ports
  = (fun p => (device p, description p))
    <$> filter (fun p => is_arduino p = true) all_ports.
Proof.
  unfold find_arduino_ports.
  assert (H : forall acc,
    foldl (fun a p => scan_signatures ARDUINO_SIGNATURES p a) acc all_ports
    = (acc ++ ((fun p => (device p, description p))
               <$> filter (fun p => is_arduino p = true) all_ports))%list).
  { induction all_ports as [|p ports IH]; intros acc.
    - cbn. by rewrite app_nil_r.
    - cbn [foldl]. rewrite IH, scan_signatures_spec.
      fold (is_arduino p). destruct (is_arduino p) eqn:E.
      + rewrite filter_cons_True by exact E.
        by rewrite <- List.app_assoc.
      + rewrite filter_cons_False by (by rewrite E). reflexivity. }
  apply (H []).
Qed.

(** X13.  [find_arduino_ports] lists, in the order of the scan and each at
    most once, exactly the ports for which one of the signatures occurs
    in the description or in the device name once both sides are put in
    upper case; with no port, or no such port, the list is empty. *)
Theorem find_arduino_ports_spec all_ports :
  find_arduino_ports all_ports
  = (fun p => (device p, description p))
    <$> filter (fun p => is_arduino p = true) all_ports
  /\ (forall dev desc,
        (dev, desc) ∈ find_arduino_ports all_ports <->
        mkPort dev desc ∈ all_ports
        /\ exists signature a b,
             signature ∈ ARDUINO_SIGNATURES
             /\ (py_upper desc = a +:+ py_upper signature +:+ b
                 \/ py_upper dev = a +:+ py_upper signature +:+ b))
  /\ (length (find_arduino_ports all_ports) <= length all_ports)%nat.
Proof.
  assert (Hspec : forall p, is_arduino p = true <->
            exists signature a b,
              signature ∈ ARDUINO_SIGNATURES
              /\ (py_upper (description p) = a +:+ py_upper signature +:+ b
                  \/ py_upper (device p) = a +:+ py_upper signature +:+ b)).
  { intros p. unfold is_arduino. rewrite existsb_exists. split.
    - intros (sg & Hin & Hm). apply orb_true_iff in Hm.
      rewrite !substring_spec in Hm. apply list_elem_of_In in Hin.
      destruct Hm as [(a & b & H)|(a & b & H)]; exists sg, a, b; auto.
    - intros (sg & a & b & Hin & Hm). exists sg.
      split; [by apply list_elem_of_In|].
      apply orb_true_iff. rewrite !substring_spec.
      destruct Hm as [H|H]; [left|right]; eauto. }
  rewrite find_arduino_ports_filter. split; [reflexivity|]. split.
  - intros dev desc. rewrite list_elem_of_fmap. split.
    + intros ([d e] & [= -> ->] & Hin).
      apply list_elem_of_filter in Hin as [Ha Hin].
      split; [exact Hin|]. by apply (Hspec (mkPort d e)).
    + intros (Hin & Hm). exists (mkPort dev desc). split; [reflexivity|].
      apply list_elem_of_filter. split; [|exact Hin]. by apply Hspec.
  - rewrite length_fmap. apply length_filter.
Qed.

(** X14.  Detection ignores letter case.  A port is listed as soon as
    its description or its device name contains a signature written in
    any letter case, such as ["arduino"] or ["usb serial"]. *)
Theorem detection_ignores_case all_ports p signature w a b :
  p ∈ all_ports ->
  signature ∈ ARDUINO_SIGNATURES ->
  py_upper w = py_upper signature ->
  description p = a +:+ w +:+ b \/ device p = a +:+ w +:+ b ->
  (device p, description p) ∈ find_arduino_ports all_ports.
Proof.
  intros Hp Hsig Hw Hocc. rewrite find_arduino_ports_filter.
  apply list_elem_of_fmap. exists p. split; [reflexivity|].
  apply list_elem_of_filter. split; [|exact Hp].
  unfold is_arduino. apply existsb_exists. exists signature.
  split; [by apply list_elem_of_In|].
  apply orb_true_iff. rewrite !substring_spec.
  destruct Hocc as [H|H]; [left|right]; rewrite H;
    exists (py_upper a), (py_upper b); by rewrite !py_upper_app, Hw.
Qed.





(** ** The exit status of [main] *)

Section ExitStatus.

Context (key : string).


End ExitStatus.

(** ** The further properties at sample inputs *)

Lemma example_vote_run :
  process_vote example_env "VOTE,2" (initial_state Missing None)
  = (Ok true, after_vote example_env 2 0 (initial_state Missing None)).
Proof.
  rewrite process_vote_factor. change (parse_vote "VOTE,2") with (Some 2).
  by apply record_vote_int.
Qed.

Lemma vote_lines_modulo_space_witness :
  process_vote example_env "  VOTE,2 " (initial_state Missing None)
  = process_vote example_env "VOTE,2" (initial_state Missing None)
  /\ parse_vote "VOTE, +2" = Some 2.
Proof.
  destruct vote_lines_modulo_space as (Hpad & Htok & _ & _). split.
  - apply (Hpad example_env "  " "VOTE,2" " "); reflexivity.
  - exact (eq_trans (Htok " +2" eq_refl) eq_refl).
Defined.

Lemma votes_counted_once_witness :
  exists st',
    process_votes example_mixed_calls (initial_state Missing None)
    = (Ok [true; false; true; false; true], st')
    /\ votes_since_last_upload st' = 3
    /\ votes st' !! 1 = Some (PInt 2).
Proof.
  destruct (votes_counted_once example_mixed_calls (initial_state Missing None)
              (proj1 (four_counts_ok 0 0 0 0)))
    as (st' & Hrun & Hp & _ & Hc).
  exists st'. split; [exact Hrun|]. split; [exact Hp|].
  exact (Hc 1 0 eq_refl).
Defined.



Lemma restart_restores_tally_witness :
  exists st0,
    startup (Some "COM3") example_bars 0 true
      (initial_state
         (votes_file (after_vote example_env 2 0 (initial_state Missing None)))
         (log_file (after_vote example_env 2 0 (initial_state Missing None))))
    = (Ok tt, st0)
    /\ votes st0 = <[2 := PInt 1]> initial_votes
    /\ votes_since_last_upload st0 = 0.
Proof.
  destruct (restart_restores_tally example_env "VOTE,2"
              (initial_state Missing None)
              (after_vote example_env 2 0 (initial_state Missing None))
              "COM3" example_bars 0 (four_counts_ok 0 0 0 0)
              initial_votes_nonneg example_vote_run eq_refl)
    as (st0 & Hrun & Hv & Hp & _).
  exists st0. split; [exact Hrun|]. split; [exact Hv|exact Hp].
Defined.

Lemma load_all_or_nothing_witness :
  exists st',
    load_votes_from_file (initial_state example_file None) = (Ok tt, st')
    /\ votes st' !! 2 = Some (PInt 5).
Proof.
  destruct (load_all_or_nothing (initial_state example_file None))
    as (st' & Hrun & _ & _ & _ & _ & Hall & _).
  exists st'. split; [exact Hrun|].
  apply (Hall _ eq_refl). repeat constructor; eexists; reflexivity.
Defined.


Lemma upload_exactly_when_due_witness :
  exists st',
    loop_body "K" example_tick example_pending = (Ok tt, st')
    /\ count_events is_post (trace st') = 1%nat.
Proof.
  destruct (upload_exactly_when_due "K" example_tick example_pending
              (four_counts_ok 1 0 0 0))
    as (st' & Hrun & Hposts & _).
  - apply (four_counts_nonneg 1 0 0 0); lia.
  - cbn. lia.
  - exists st'. split; [exact Hrun|exact Hposts].
Defined.

Lemma upload_sends_totals_witness :
  exists st' rest,
    loop_body "K" example_tick example_pending = (Ok tt, st')
    /\ trace st'
       = EPost [("api_key", PStr "K"); ("field1", PInt 1); ("field2", PInt 1);
                ("field3", PInt 0); ("field4", PInt 0)] :: rest.
Proof.
  destruct (upload_sends_totals "K" example_tick example_pending
              (four_counts_ok 1 0 0 0))
    as (st' & p & rest & Hrun & Htr & Hp & _).
  - apply (four_counts_nonneg 1 0 0 0); lia.
  - cbn. lia.
  - reflexivity.
  - exists st', rest. split; [exact Hrun|]. rewrite Htr, Hp.
    injection Hrun as <-. reflexivity.
Defined.

Lemma failed_push_stays_due_witness :
  exists st',
    loop_body "K" example_tick example_pending = (Ok tt, st')
    /\ should_upload (1161 # 10) st' = (Ok true, st').
Proof.
  destruct (failed_push_stays_due "K" example_tick example_pending
              (four_counts_ok 1 0 0 0))
    as (st' & Hrun & Hdue).
  - apply (four_counts_nonneg 1 0 0 0); lia.
  - cbn. lia.
  - reflexivity.
  - reflexivity.
  - exists st'. split; [exact Hrun|]. apply Hdue. cbn. unfold Qle. cbn. lia.
Defined.


Lemma find_arduino_ports_spec_witness :
  find_arduino_ports example_ports
  = [("COM5", "usb-serial ch340 (COM5)"); ("/dev/ttyACM0", "Board")].
Proof.
  rewrite (proj1 (find_arduino_ports_spec example_ports)). reflexivity.
Defined.

Lemma detection_ignores_case_witness :
  ("COM5", "usb-serial ch340 (COM5)") ∈ find_arduino_ports example_ports.
Proof.
  apply (detection_ignores_case example_ports
           (mkPort "COM5" "usb-serial ch340 (COM5)") "CH340" "ch340"
           "usb-serial " " (COM5)").
  - right. left.
  - left.
  - reflexivity.
  - left. reflexivity.
Defined.


